(** * shld: linking sourced shell fragments into one script

    A shallow embedding of [shld.py] (the recursive expansion of [source]
    and [.] commands) together with the properties of its natural-language
    specification.

    Python byte strings ([str]) are Rocq [string]s; a file object opened
    for reading is the list of its remaining lines; the process state that
    [process_file] touches (working directory, output stream, the [open]
    calls made so far) is threaded explicitly.  A call ends by returning,
    by [exit(code)], or by an exception that nothing catches; the depth of
    the recursion is bounded by a budget, since files that include each
    other make the program recurse without end.

    The program runs under Python 2 on a POSIX system.  The file system is
    a finite map from absolute locations to file contents, and path names
    are resolved lexically: there are no symbolic links, and every
    directory that a path name passes through is taken to exist. *)

From Stdlib Require Import Ascii String List Arith Lia Bool.
From stdpp Require Import base option gmap strings.
Import ListNotations.

Local Open Scope list_scope.

(** ** Characters and the character classes of the patterns *)

Module Chr.

Definition code (c : ascii) : nat := nat_of_ascii c.

Definition newline : ascii := ascii_of_nat 10.
Definition slash : ascii := "/"%char.
Definition squote : ascii := ascii_of_nat 39.
Definition dquote : ascii := ascii_of_nat 34.
Definition backslash : ascii := ascii_of_nat 92.

Definition eqb (a b : ascii) : bool := Ascii.eqb a b.

(** [\s] of a pattern compiled with [re.UNICODE] and applied to a byte
    string: the code points below 256 that Python 2 classes as white
    space (TAB LF VT FF CR, FS GS RS US, SPACE, NEL, NBSP). *)
Definition re_space (c : ascii) : bool :=
  let n := code c in
  (((9 <=? n) && (n <=? 13)) || ((28 <=? n) && (n <=? 32))
   || (n =? 133) || (n =? 160))%nat.

(** [[^/\s]] *)
Definition shell_char (c : ascii) : bool :=
  negb (eqb c slash) && negb (re_space c).

(** Lower-casing as [re.IGNORECASE] needs it for a pattern of ASCII
    characters: among the code points below 256 only A-Z have an ASCII
    letter as their lower case. *)
Definition lower (c : ascii) : ascii :=
  let n := code c in
  if ((65 <=? n) && (n <=? 90))%nat then ascii_of_nat (n + 32) else c.

(** [shlex.whitespace] is the four characters space, TAB, CR and LF. *)
Definition shlex_space (c : ascii) : bool :=
  let n := code c in
  ((n =? 32) || (n =? 9) || (n =? 13) || (n =? 10))%nat.

End Chr.

Local Open Scope string_scope.

(** ** Strings *)

Module Str.

Fixpoint all (p : ascii -> bool) (s : string) : bool :=
  match s with
  | EmptyString => true
  | String c r => p c && all p r
  end.

Fixpoint dropwhile (p : ascii -> bool) (s : string) : string :=
  match s with
  | EmptyString => EmptyString
  | String c r => if p c then dropwhile p r else s
  end.

(** The longest prefix whose characters satisfy [p], and what follows. *)
Fixpoint span (p : ascii -> bool) (s : string) : string * string :=
  match s with
  | EmptyString => (EmptyString, EmptyString)
  | String c r =>
      if p c then let (a, b) := span p r in (String c a, b)
      else (EmptyString, s)
  end.

Definition nonempty (s : string) : bool :=
  match s with EmptyString => false | String _ _ => true end.

(** [s.startswith(k)] after mapping the characters of [s] through [f]. *)
Fixpoint startswith_via (f : ascii -> ascii) (k s : string) : option string :=
  match k with
  | EmptyString => Some s
  | String a k' =>
      match s with
      | EmptyString => None
      | String b s' =>
          if Chr.eqb a (f b) then startswith_via f k' s' else None
      end
  end.

Definition strip_prefix (k s : string) : option string :=
  startswith_via (fun c => c) k s.

Fixpoint concat (l : list string) : string :=
  match l with
  | [] => EmptyString
  | x :: r => x +:+ concat r
  end.

End Str.

(** ** The three regular expressions of [shld.py] *)

Module Re.

(** [SHLDIGNORE_COMMENT_PATTERN.match(line)], the pattern being
    [^\s*#shldignore] under [re.UNICODE | re.IGNORECASE]. *)
Definition SHLDIGNORE_COMMENT_PATTERN (line : string) : bool :=
  match Str.startswith_via Chr.lower "#shldignore"
          (Str.dropwhile Chr.re_space line) with
  | Some _ => true
  | None => false
  end.

(** The alternation [(?:source|\.)]: what is left after the keyword. *)
Definition keyword (s : string) : option string :=
  match Str.strip_prefix "source" s with
  | Some r => Some r
  | None => Str.strip_prefix "." s
  end.

(** [SOURCE_CMD_PATTERN.match(line)], the pattern being
    [^\s*(?:source|\.)\s+\.*]: leading white space, the keyword, at least
    one white-space character; the closing [\.*] matches the empty string
    and so never makes the match fail. *)
Definition SOURCE_CMD_PATTERN (line : string) : bool :=
  match keyword (Str.dropwhile Chr.re_space line) with
  | Some (String c _) => Chr.re_space c
  | _ => false
  end.

(** The tail [([^/\s]+)\s*$] of the interpreter pattern tried at the head
    of [s]: the greedy group takes the longest run of shell characters,
    which must be non-empty and followed by white space only. *)
Definition shell_tail (s : string) : option string :=
  let (tok, rest) := Str.span Chr.shell_char s in
  if Str.nonempty tok && Str.all Chr.re_space rest then Some tok else None.

(** [re.search(ur'.*?([^/\s]+)\s*$', line, re.UNICODE)] followed by
    [match.group(1)]: the lazy prefix [.*?] grows one character at a time
    and the tail is tried at each position; [None] is the failed search. *)
Fixpoint search_shell (line : string) : option string :=
  match shell_tail line with
  | Some tok => Some tok
  | None =>
      match line with
      | EmptyString => None
      | String _ r => search_shell r
      end
  end.

End Re.

(** ** [shlex.split(line)] (Python 2.7, POSIX mode)

    [shlex.split] builds a lexer with [whitespace_split = True] and no
    comment characters and collects [read_token] until it yields [None].
    The lexer is the state machine of [shlex.read_token]; [self.state] is
    one of [' '], ['a'], a quote character or the escape character. *)

Module Shlex.

Inductive lstate : Type :=
| LSpace                 (* ' ' : between tokens *)
| LWord                  (* 'a' : inside a word *)
| LQuote (q : ascii)     (* inside a quotation opened by q *)
| LEscape.               (* just after a backslash *)

Definition is_quote (c : ascii) : bool :=
  Chr.eqb c Chr.squote || Chr.eqb c Chr.dquote.

Definition is_escape (c : ascii) : bool := Chr.eqb c Chr.backslash.

(** [self.escapedquotes] is the double quote alone. *)
Definition in_escapedquotes (q : ascii) : bool := Chr.eqb q Chr.dquote.

Definition snoc (token : string) (c : ascii) : string :=
  token +:+ String c EmptyString.

(** What [read_token] hands back when the input ends in state [' '] or
    ['a']: the pending token, unless it is empty and unquoted, in which
    case the result is [None] and the iteration stops at once. *)
Definition at_eof (token : string) (quoted : bool) : list string :=
  if negb quoted && negb (Str.nonempty token) then [] else [token].

(** The tokens read from [s]; [None] stands for the [ValueError] of an
    unterminated quotation or a trailing backslash. *)
Fixpoint tokens (s : string) (state escapedstate : lstate)
    (token : string) (quoted : bool) : option (list string) :=
  match s with
  | EmptyString =>
      match state with
      | LSpace | LWord => Some (at_eof token quoted)
      | LQuote _ | LEscape => None
      end
  | String nextchar r =>
      match state with
      | LSpace =>
          if Chr.shlex_space nextchar then
            if Str.nonempty token || quoted
            then option_map (cons token) (tokens r LSpace LSpace EmptyString false)
            else tokens r LSpace escapedstate token quoted
          else if is_escape nextchar then tokens r LEscape LWord token quoted
          else if is_quote nextchar then
            tokens r (LQuote nextchar) escapedstate token quoted
          else tokens r LWord escapedstate (String nextchar EmptyString) quoted
      | LQuote q =>
          if Chr.eqb nextchar q then tokens r LWord escapedstate token true
          else if is_escape nextchar && in_escapedquotes q
          then tokens r LEscape (LQuote q) token true
          else tokens r (LQuote q) escapedstate (snoc token nextchar) true
      | LEscape =>
          let token :=
            match escapedstate with
            | LQuote q =>
                if negb (is_escape nextchar) && negb (Chr.eqb nextchar q)
                then snoc token Chr.backslash else token
            | _ => token
            end in
          tokens r escapedstate escapedstate (snoc token nextchar) quoted
      | LWord =>
          if Chr.shlex_space nextchar then
            if Str.nonempty token || quoted
            then option_map (cons token) (tokens r LSpace LSpace EmptyString false)
            else tokens r LSpace escapedstate token quoted
          else if is_quote nextchar then
            tokens r (LQuote nextchar) escapedstate token quoted
          else if is_escape nextchar then tokens r LEscape LWord token quoted
          else tokens r LWord escapedstate (snoc token nextchar) quoted
      end
  end.

Definition split (s : string) : option (list string) :=
  tokens s LSpace LSpace EmptyString false.

End Shlex.

(** ** [os.path] and the working directory

    A directory is the list of the names that lead to it from the root.
    Path names are resolved lexically, as on a file system without symbolic
    links: empty and [.] components are skipped, [..] goes to the parent. *)

Module Path.

Definition is_slash (c : ascii) : bool := Chr.eqb c Chr.slash.

Fixpoint has_slash (s : string) : bool :=
  match s with
  | EmptyString => false
  | String c r => is_slash c || has_slash r
  end.

(** [p[:p.rfind('/') + 1]] *)
Fixpoint head (p : string) : string :=
  match p with
  | EmptyString => EmptyString
  | String c r => if has_slash p then String c (head r) else EmptyString
  end.

(** [s.rstrip('/')] *)
Fixpoint rstrip_slash (s : string) : string :=
  match s with
  | EmptyString => EmptyString
  | String c r =>
      match rstrip_slash r with
      | EmptyString => if is_slash c then EmptyString else String c EmptyString
      | r' => String c r'
      end
  end.

(** [posixpath.dirname]: the head up to the last slash, without its
    trailing slashes unless it consists of slashes only. *)
Definition dirname (p : string) : string :=
  let h := head p in
  if Str.nonempty h && negb (Str.all is_slash h) then rstrip_slash h else h.

(** [p.split('/')] *)
Fixpoint components (p : string) : list string :=
  match p with
  | EmptyString => [EmptyString]
  | String c r =>
      if is_slash c then EmptyString :: components r
      else match components r with
           | [] => [String c EmptyString]
           | x :: xs => String c x :: xs
           end
  end.

Definition dir := list string.

Definition is_dots (c : string) : bool :=
  String.eqb c EmptyString || String.eqb c ".".

Definition walk (d : dir) (c : string) : dir :=
  if is_dots c then d
  else if String.eqb c ".." then removelast d
  else (d ++ [c])%list.

Definition is_absolute (p : string) : bool :=
  match p with
  | String c _ => is_slash c
  | EmptyString => false
  end.

(** The directory or file that [p] names for a process whose working
    directory is [cwd]. *)
Definition resolve (cwd : dir) (p : string) : dir :=
  fold_left walk (components p) (if is_absolute p then [] else cwd).

(** [os.getcwd()]: the absolute path name of the working directory. *)
Definition getcwd (cwd : dir) : string :=
  match cwd with
  | [] => "/"
  | _ => Str.concat (map (fun c => String Chr.slash c) cwd)
  end.

(** The last component of [p] names a file, not a directory. *)
Definition names_file (p : string) : bool :=
  let c := List.last (components p) EmptyString in
  negb (is_dots c) && negb (String.eqb c "..").

(** A name that can be an entry of a directory. *)
Definition proper_name (c : string) : bool :=
  negb (is_dots c) && negb (String.eqb c "..") && negb (has_slash c).

Definition wf_dir (d : dir) : bool := forallb proper_name d.

End Path.

(** ** Files *)

(** The regular files of the machine, by absolute location. *)
Definition filesystem := gmap Path.dir string.

(** [open(filename, mode='r')] for a process in directory [cwd]: the
    content of the file, or [None] for the [IOError]. *)
Definition fs_open (fs : filesystem) (cwd : Path.dir) (filename : string)
    : option string :=
  if Path.names_file filename then fs !! Path.resolve cwd filename else None.

(** The lines that successive [readline()] calls return, each with its
    line terminator; only the last one may lack it and none is empty. *)
Fixpoint readlines (content : string) : list string :=
  match content with
  | EmptyString => []
  | String c r =>
      if Chr.eqb c Chr.newline then String c EmptyString :: readlines r
      else match readlines r with
           | [] => [String c EmptyString]
           | l :: ls => String c l :: ls
           end
  end.

(** [input_fd.readline()]: the next line, or the empty string at the end
    of the file. *)
Definition readline (input_fd : list string) : string * list string :=
  match input_fd with
  | [] => (EmptyString, [])
  | line :: rest => (line, rest)
  end.

(** ** Process state and the ways [process_file] can end *)

Record state : Type := State {
  cwd : Path.dir;                (* the working directory of the process *)
  output : string;               (* what was written to [output_fd] *)
  opened : list Path.dir         (* the files [open] was called on, in order *)
}.

Definition write (line : string) (st : state) : state :=
  State (cwd st) (output st +:+ line) (opened st).

Definition chdir (path : string) (st : state) : state :=
  State (Path.resolve (cwd st) path) (output st) (opened st).

Definition note_open (filename : string) (st : state) : state :=
  State (cwd st) (output st)
        (opened st ++ [Path.resolve (cwd st) filename])%list.

Inductive exn : Type := AttributeError | IndexError | ValueError.

(** What the error message on [sys.stderr] reports. *)
Inductive report : Type :=
| FailedToOpen (filename : string)
| NotSupportedShell (shell : string)
| ShldignoreWithoutSource (input_filename : string) (line_number : nat).

Inductive outcome : Type :=
| Returned                                  (* the call returned *)
| Exited (code : nat) (stderr : report)     (* [exit(code)] *)
| Raised (e : exn)                          (* an exception nobody catches *)
| TooDeep.                                  (* the recursion budget ran out *)

Definition OPEN_FAILED : nat := 1.
Definition UNSUPPORTED_SHELL : nat := 2.
Definition IMPROPER_USE_OF_SHLDIGNORE : nat := 3.
Definition WRONG_NUMBER_ARGS : nat := 4.
Definition FILE_EXISTS : nat := 5.
Definition FILE_NOT_WRITEABLE : nat := 6.
Definition DIRECTORY_DOES_NOT_EXIST : nat := 7.
Definition DIRECTORY_NOT_WRITEABLE : nat := 8.

Definition SUPPORTED_SHELLS : list string := ["sh"; "bash"; "dash"; "ksh"].

Definition supported (shell : string) : bool :=
  existsb (String.eqb shell) SUPPORTED_SHELLS.

(** ** [process_file] *)

(** [shlex.split(line)[1]]: the file name that comes after the source
    command, or the exception raised on the way. *)
Definition source_target (line : string) : exn + string :=
  match Shlex.split line with
  | None => inl ValueError
  | Some (_ :: target :: _) => inr target
  | Some _ => inl IndexError
  end.

Section Scan.

(** The recursive call [process_file(_, output_fd, depth + 1)]. *)
Variable recurse : string -> state -> outcome * state.
Variable input_filename : string.

(** The [while True] loop over the lines still to be read. *)
Fixpoint scan (input_fd : list string) (line_number : nat) (st : state)
    : outcome * state :=
  match input_fd with
  | [] => (Returned, st)
  | line :: input_fd =>
      if Re.SHLDIGNORE_COMMENT_PATTERN line then
        match input_fd with
        | [] =>
            if negb (Re.SOURCE_CMD_PATTERN EmptyString)
            then (Exited IMPROPER_USE_OF_SHLDIGNORE
                    (ShldignoreWithoutSource input_filename line_number), st)
            else (Returned, write EmptyString st)
        | line :: input_fd =>
            if negb (Re.SOURCE_CMD_PATTERN line)
            then (Exited IMPROPER_USE_OF_SHLDIGNORE
                    (ShldignoreWithoutSource input_filename line_number), st)
            else scan input_fd (line_number + 1 + 1) (write line st)
        end
      else if Re.SOURCE_CMD_PATTERN line then
        match source_target line with
        | inl e => (Raised e, st)
        | inr target =>
            match recurse target st with
            | (Returned, st) => scan input_fd (line_number + 1) st
            | aborted => aborted
            end
        end
      else scan input_fd (line_number + 1) (write line st)
  end.

End Scan.

(** The [depth == 0] branch: the interpreter line is read, checked and
    copied.  The result is the file object, [line_number] and the state to
    go on with, or the way the call ends. *)
Definition interpreter_line (depth : nat) (input_fd : list string) (st : state)
    : (outcome * state) + (list string * nat * state) :=
  match depth with
  | O =>
      let (line, input_fd) := readline input_fd in
      match Re.search_shell line with
      | None => inl (Raised AttributeError, st)
      | Some shell =>
          if negb (supported shell)
          then inl (Exited UNSUPPORTED_SHELL (NotSupportedShell shell), st)
          else inr (input_fd, 1, write line st)
      end
  | S _ => inr (input_fd, 0, st)
  end.

(** The conditional [pushd]: [saved_cwd] and the state after it. *)
Definition pushd (input_filename : string) (st : state) : option string * state :=
  let input_dirname := Path.dirname input_filename in
  if Str.nonempty input_dirname
  then (Some (Path.getcwd (cwd st)), chdir input_dirname st)
  else (None, st).

(** The conditional [popd]: [if saved_cwd: os.chdir(saved_cwd)]. *)
Definition popd (saved_cwd : option string) (st : state) : state :=
  match saved_cwd with
  | Some d => if Str.nonempty d then chdir d st else st
  | None => st
  end.

(** [process_file(input_filename, output_fd, depth)], with [fuel] bounding
    how deep the inclusions may nest. *)
Fixpoint process_file (fs : filesystem) (fuel : nat) (input_filename : string)
    (depth : nat) (st : state) : outcome * state :=
  match fuel with
  | O => (TooDeep, st)
  | S fuel =>
      let st := note_open input_filename st in
      match fs_open fs (cwd st) input_filename with
      | None => (Exited OPEN_FAILED (FailedToOpen input_filename), st)
      | Some content =>
          match interpreter_line depth (readlines content) st with
          | inl aborted => aborted
          | inr (input_fd, line_number, st) =>
              let (saved_cwd, st) := pushd input_filename st in
              match scan (fun target => process_file fs fuel target (depth + 1))
                      input_filename input_fd line_number st with
              | (Returned, st) => (Returned, popd saved_cwd st)
              | aborted => aborted
              end
          end
      end
  end.

(** The run of the program on [filename] from directory [start]. *)
Definition initial (start : Path.dir) : state := State start EmptyString [].

Definition shld (fs : filesystem) (fuel : nat) (start : Path.dir)
    (filename : string) : outcome * state :=
  process_file fs fuel filename 0 (initial start).

(** ** The specification's reading of the same operations *)

(** The directory a file at [location] lies in. *)
Definition containing_dir (location : Path.dir) : Path.dir := removelast location.

(** Manual pasting: [pasted fs here lines text] holds when [text] is what
    one gets from [lines], the lines of a file that lies in directory
    [here], by copying every line that is not an inclusion statement and
    putting, in place of every inclusion statement, the pasted content of
    the file it names.  There is no rule for an ignore directive, and an
    inclusion statement whose file cannot be opened has no pasted text. *)
Inductive pasted (fs : filesystem) : Path.dir -> list string -> string -> Prop :=
| pasted_end here :
    pasted fs here [] EmptyString
| pasted_copy here line rest text :
    Re.SHLDIGNORE_COMMENT_PATTERN line = false ->
    Re.SOURCE_CMD_PATTERN line = false ->
    pasted fs here rest text ->
    pasted fs here (line :: rest) (line +:+ text)
| pasted_include here line rest target content inner text :
    Re.SOURCE_CMD_PATTERN line = true ->
    source_target line = inr target ->
    fs_open fs here target = Some content ->
    pasted fs (containing_dir (Path.resolve here target))
           (readlines content) inner ->
    pasted fs here rest text ->
    pasted fs here (line :: rest) (inner +:+ text).

(** The expansion with the directory context as an explicit parameter
    instead of the working directory of the process: [input_filename] is
    looked up from [base], and every inclusion statement of the file is
    looked up from the directory the file lies in.  The [cwd] field of the
    state is neither read nor written. *)
Fixpoint expand_at (fs : filesystem) (fuel : nat) (base : Path.dir)
    (input_filename : string) (depth : nat) (st : state) : outcome * state :=
  match fuel with
  | O => (TooDeep, st)
  | S fuel =>
      let location := Path.resolve base input_filename in
      let st := State (cwd st) (output st) (opened st ++ [location])%list in
      match fs_open fs base input_filename with
      | None => (Exited OPEN_FAILED (FailedToOpen input_filename), st)
      | Some content =>
          match interpreter_line depth (readlines content) st with
          | inl aborted => aborted
          | inr (input_fd, line_number, st) =>
              scan (fun target =>
                      expand_at fs fuel (containing_dir location) target (depth + 1))
                   input_filename input_fd line_number st
          end
      end
  end.

(** Two states that differ at most in the working directory. *)
Definition same_streams (a b : state) : Prop :=
  output a = output b /\ opened a = opened b.

(** Two runs end the same way with the same streams, and the first one, if
    it returned, is in directory [here]. *)
Definition tracks (here : Path.dir) (r1 r2 : outcome * state) : Prop :=
  fst r1 = fst r2 /\ same_streams (snd r1) (snd r2) /\
  (fst r1 = Returned -> cwd (snd r1) = here).

(** What follows the last slash of [s]: [s[s.rfind('/') + 1:]]. *)
Fixpoint after_last_slash (s : string) : string :=
  match s with
  | EmptyString => EmptyString
  | String c r => if Path.has_slash s then after_last_slash r else s
  end.

(** [s] without its trailing white space. *)
Fixpoint rstrip_space (s : string) : string :=
  match s with
  | EmptyString => EmptyString
  | String c r =>
      match rstrip_space r with
      | EmptyString => if Chr.re_space c then EmptyString else String c EmptyString
      | r' => String c r'
      end
  end.

(** The interpreter name as the specification words it: the token after
    the last path separator, trimmed of trailing white space. *)
Definition trailing_component (line : string) : string :=
  rstrip_space (after_last_slash line).

(** The last character of a string, if any. *)
Fixpoint last_char (s : string) : option ascii :=
  match s with
  | EmptyString => None
  | String c EmptyString => Some c
  | String _ r => last_char r
  end.

(** [line] ends with the word [shell]: a longest run of characters other
    than slash and white space, with only white space after it. *)
Definition ends_with_word (line shell : string) : Prop :=
  exists before trail,
    line = before +:+ shell +:+ trail /\
    match last_char before with
    | Some c => Chr.shell_char c = false
    | None => True
    end /\
    Str.nonempty shell = true /\
    Str.all Chr.shell_char shell = true /\
    Str.all Chr.re_space trail = true.

(** The validator as the specification states it: the trailing component
    decides between copying the interpreter line and the exit. *)
Definition validator_by_trailing_component : Prop :=
  forall (input_fd : list string) (st : state),
    let line := fst (readline input_fd) in
    let token := trailing_component line in
    interpreter_line 0 input_fd st =
      if supported token
      then inr (snd (readline input_fd), 1, write line st)
      else inl (Exited UNSUPPORTED_SHELL (NotSupportedShell token), st).

(** The ignore directive as the specification states it: the directive
    line and the inclusion line after it are both copied. *)
Definition directive_and_inclusion_copied : Prop :=
  forall recurse input_filename directive inclusion rest line_number st,
    Re.SHLDIGNORE_COMMENT_PATTERN directive = true ->
    Re.SOURCE_CMD_PATTERN inclusion = true ->
    scan recurse input_filename (directive :: inclusion :: rest) line_number st =
    scan recurse input_filename rest (line_number + 1 + 1)
         (write inclusion (write directive st)).

(** The misuse report as the specification states it, with line numbers
    counted from one: a directive on line [k + 1] of any file that is not
    followed by an inclusion statement ends the run with code 3 and a
    report that names line [k + 1]. *)
Definition misuse_reported_at_directive_line : Prop :=
  forall fs fuel start filename content k directive,
    fs_open fs start filename = Some content ->
    nth_error (readlines content) k = Some directive ->
    Re.SHLDIGNORE_COMMENT_PATTERN directive = true ->
    Re.SOURCE_CMD_PATTERN
      (nth (S k) (readlines content) EmptyString) = false ->
    exists st',
      shld fs (S fuel) start filename =
      (Exited IMPROPER_USE_OF_SHLDIGNORE
         (ShldignoreWithoutSource filename (S k)), st').

(** An inclusion statement as the specification states it: the keyword,
    white space, and then at least one character that is not white space. *)
Definition names_a_file (line : string) : bool :=
  match Re.keyword (Str.dropwhile Chr.re_space line) with
  | Some (String c r) =>
      Chr.re_space c && Str.nonempty (Str.dropwhile Chr.re_space r)
  | _ => false
  end.

(** ** Sample scripts *)

Module Sample.

Definition nl : string := String Chr.newline EmptyString.
Definition ln (s : string) : string := s +:+ nl.

(** The layout of the relative-path test: a script in [resources] that
    sources a file one directory down, which sources one further down. *)
Definition nested : filesystem :=
  <[ ["t"; "resources"; "relpath-and-recursion.sh"] :=
       ln "#!/bin/bash" +:+ ln "echo top" +:+
       ln ". include_level_1/include1.sh" +:+ ln "echo end" ]>
  (<[ ["t"; "resources"; "include_level_1"; "include1.sh"] :=
       ln "echo one" +:+ ln "source include_level_2/include2.sh" ]>
  (<[ ["t"; "resources"; "include_level_1"; "include_level_2"; "include2.sh"] :=
       ln "echo two" ]>
  (<[ ["t"; "include_level_2"; "include2.sh"] := ln "echo from the start directory" ]>
  (<[ ["t"; "resources"; "include_level_2"; "include2.sh"] :=
       ln "echo from the directory of the script" ]> ∅)))).

Definition scripts : filesystem :=
  <[ ["shldignore.sh"] :=
       ln "#!/bin/bash" +:+ ln "#shldignore" +:+
       ln ". file/to/source/at/runtime" +:+ ln "echo done" ]>
  (<[ ["improper.sh"] :=
       ln "#!/bin/bash" +:+ ln "#shldignore" +:+ ln "echo not-an-include" ]>
  (<[ ["zsh-improper.sh"] :=
       ln "#!/bin/zsh" +:+ ln "#shldignore" +:+ ln "echo not-an-include" ]>
  (<[ ["env.sh"] := ln "#!/usr/bin/env bash" +:+ ln "echo a" ]>
  (<[ ["zsh.sh"] := ln "#!/bin/zsh" +:+ ln "echo a" ]>
  (<[ ["simple.sh"] := ln "#!/bin/sh" +:+ ln "echo a" +:+ "echo b" ]>
  (<[ ["bare.sh"] := ln "#!/bin/sh" +:+ ln "source " ]>
  (<[ ["empty.sh"] := EmptyString ]> ∅))))))).

End Sample.

(** ** The script around [process_file]

    The module-level code of [shld.py]: the checks on the arguments and on
    the output file, the call of [process_file], the renaming of the
    temporary file onto the output file, and [cleanup], which [atexit]
    runs however the script ends.  [custom_argparse] yields the [--force]
    flag and the list of the other arguments; they are taken as given. *)

(** What [os.access] answers for a path name and the modes [os.F_OK] and
    [os.W_OK]. *)
Record os_access : Type := Access {
  F_OK : string -> bool;
  W_OK : string -> bool
}.

(** What the script itself writes to [sys.stderr] before it exits. *)
Inductive complaint : Type :=
| WrongNumberOfArguments (num_filenames : nat)
| FileExists (output_filename : string)
| FileNotWriteable (output_filename : string)
| DirectoryDoesNotExist (output_dir : string)
| DirectoryNotWriteable (output_dir : string).

Inductive message : Type :=
| Usage (c : complaint)
| Processing (r : report).

(** How the script ends. *)
Inductive ending : Type :=
| Completed
| Failed (code : nat) (stderr : message)
| Uncaught (e : exn)
| Unbounded.

(** [output_fd]: [sys.stdout], or the temporary file that is to become
    [output_filename]. *)
Inductive sink : Type :=
| ToStdout
| ToTemp (output_filename : string).

(** What the script leaves behind: the regular files, the temporary file
    if there is one, and what went to the standard output. *)
Record machine : Type := Machine {
  files : filesystem;
  temp : option string;
  stdout : string
}.

(** The checks before anything is read: the exit code and the complaint,
    or where the output is to go. *)
Definition preflight (os : os_access) (force : bool) (filenames : list string)
    : (nat * complaint) + sink :=
  let num_filenames := length filenames in
  if ((num_filenames <? 1) || (2 <? num_filenames))%nat
  then inl (WRONG_NUMBER_ARGS, WrongNumberOfArguments num_filenames)
  else if (num_filenames =? 2)%nat then
    let output_filename := nth 1 filenames EmptyString in
    if F_OK os output_filename then
      if negb force then inl (FILE_EXISTS, FileExists output_filename)
      else if negb (W_OK os output_filename)
      then inl (FILE_NOT_WRITEABLE, FileNotWriteable output_filename)
      else inr (ToTemp output_filename)
    else
      let output_dir := Path.dirname output_filename in
      if negb (F_OK os output_dir)
      then inl (DIRECTORY_DOES_NOT_EXIST, DirectoryDoesNotExist output_dir)
      else if negb (W_OK os output_dir)
      then inl (DIRECTORY_NOT_WRITEABLE, DirectoryNotWriteable output_dir)
      else inr (ToTemp output_filename)
  else inr ToStdout.

(** [cleanup()]: unless the output went to [sys.stdout], the temporary
    file is removed; that it may be gone already is no error. *)
Definition cleanup (output_fd : sink) (m : machine) : machine :=
  match output_fd with
  | ToStdout => m
  | ToTemp _ => Machine (files m) None (stdout m)
  end.

(** [os.rename(output_fd.name, output_filename)] for a process in
    directory [cwd]; the call is taken to succeed. *)
Definition rename (cwd : Path.dir) (output_filename : string) (m : machine)
    : machine :=
  match temp m with
  | Some content =>
      Machine (<[Path.resolve cwd output_filename := content]> (files m))
              None (stdout m)
  | None => m
  end.

Definition ending_of (o : outcome) : ending :=
  match o with
  | Returned => Completed
  | Exited code stderr => Failed code (Processing stderr)
  | Raised e => Uncaught e
  | TooDeep => Unbounded
  end.

(** The script, started in directory [start] with the parsed arguments. *)
Definition main (os : os_access) (fs : filesystem) (fuel : nat)
    (start : Path.dir) (force : bool) (filenames : list string)
    : ending * machine :=
  match preflight os force filenames with
  | inl (code, c) =>
      (Failed code (Usage c), cleanup ToStdout (Machine fs None EmptyString))
  | inr output_fd =>
      let (o, st) :=
        process_file fs fuel (nth 0 filenames EmptyString) 0 (initial start) in
      let m := match output_fd with
               | ToStdout => Machine fs None (output st)
               | ToTemp _ => Machine fs (Some (output st)) EmptyString
               end in
      match o, output_fd with
      | Returned, ToTemp output_filename =>
          (Completed, cleanup output_fd (rename (cwd st) output_filename m))
      | _, _ => (ending_of o, cleanup output_fd m)
      end
  end.


(** A character that [shlex] takes as part of a word as it stands. *)
Definition plain_char (c : ascii) : bool :=
  negb (Chr.shlex_space c) && negb (Shlex.is_quote c) && negb (Shlex.is_escape c).

(** A character that stands for itself between double quotes. *)
Definition quotable_char (c : ascii) : bool :=
  negb (Chr.eqb c Chr.dquote) && negb (Shlex.is_escape c).

(** [s] with its letters A-Z in lower case. *)
Fixpoint lowercase (s : string) : string :=
  match s with
  | EmptyString => EmptyString
  | String c r => String (Chr.lower c) (lowercase r)
  end.

(** [k] copies of [s] one after the other. *)
Fixpoint copies (k : nat) (s : string) : string :=
  match k with
  | O => EmptyString
  | S k => s +:+ copies k s
  end.

Module More.

(** A fragment that sources itself and a script that sources the
    fragment; a library sourced twice. *)
Definition scripts : filesystem :=
  <[ ["loop.sh"] := Sample.ln "echo again" +:+ Sample.ln ". loop.sh" ]>
  (<[ ["twice.sh"] :=
       Sample.ln "#!/bin/sh" +:+ Sample.ln ". lib.sh" +:+ Sample.ln ". lib.sh" ]>
  (<[ ["lib.sh"] := Sample.ln "echo lib" ]>
  (<[ ["missing.sh"] :=
       Sample.ln "#!/bin/sh" +:+ Sample.ln "echo a" +:+
       Sample.ln ". not/there.sh" +:+ Sample.ln "echo b" ]>
  (<[ ["opt"; "abs.sh"] := Sample.ln "echo abs" +:+ Sample.ln ". sub/rel.sh" ]>
  (<[ ["opt"; "sub"; "rel.sh"] := Sample.ln "echo rel" ]>
  (<[ ["in.sh"] := Sample.ln "#!/bin/sh" +:+ Sample.ln "echo in" ]> ∅)))))).

Definition among (l : list string) (p : string) : bool :=
  existsb (String.eqb p) l.

(** A machine on which [out] is a writable directory, [old.sh] a
    writable file and [locked.sh] a read-only one. *)
Definition os : os_access :=
  Access (among ["out"; "old.sh"; "locked.sh"]) (among ["out"; "old.sh"]).

End More.

(** * Properties *)

(** ** Strings *)

Lemma app_nil_l (s : string) : EmptyString +:+ s = s.
Proof. reflexivity. Qed.

Lemma app_cons (c : ascii) (a b : string) : String c a +:+ b = String c (a +:+ b).
Proof. reflexivity. Qed.

Lemma app_nil_r (s : string) : s +:+ EmptyString = s.
Proof. induction s as [|c s IH]; [reflexivity|]. rewrite app_cons, IH. reflexivity. Qed.

Lemma app_assoc (a b c : string) : (a +:+ b) +:+ c = a +:+ (b +:+ c).
Proof.
  induction a as [|x a IH]; [reflexivity|].
  rewrite !app_cons, IH. reflexivity.
Qed.

Lemma is_slash_true (c : ascii) : Path.is_slash c = true -> c = Chr.slash.
Proof. unfold Path.is_slash, Chr.eqb. apply Ascii.eqb_eq. Qed.

(** ** Path names *)

Lemma walk_dots (d : Path.dir) (c : string) :
  Path.is_dots c = true -> Path.walk d c = d.
Proof. unfold Path.walk. intros ->. reflexivity. Qed.

Lemma components_nonempty (p : string) : Path.components p <> [].
Proof.
  destruct p as [|c r]; simpl; [discriminate|].
  destruct (Path.is_slash c); [discriminate|].
  destruct (Path.components r); discriminate.
Qed.

Lemma components_no_slash (p : string) :
  Forall (fun c => Path.has_slash c = false) (Path.components p).
Proof.
  induction p as [|c r IH]; simpl.
  - repeat constructor.
  - destruct (Path.is_slash c) eqn:Hc.
    + constructor; [reflexivity | exact IH].
    + destruct (Path.components r) as [|x xs].
      * constructor; [simpl; rewrite Hc; reflexivity | constructor].
      * inversion IH as [|? ? Hx Hxs]; subst.
        constructor; [simpl; rewrite Hc; exact Hx | exact Hxs].
Qed.

Lemma components_single (b : string) :
  Path.has_slash b = false -> Path.components b = [b].
Proof.
  induction b as [|c r IH]; simpl; [reflexivity|].
  intros H. apply orb_false_iff in H as [Hc Hr].
  rewrite Hc, (IH Hr). reflexivity.
Qed.

Lemma components_app_slash (a b : string) :
  Path.components (a +:+ String Chr.slash b) =
  (Path.components a ++ Path.components b)%list.
Proof.
  induction a as [|c a IH].
  - rewrite app_nil_l. reflexivity.
  - rewrite app_cons. simpl. rewrite IH.
    destruct (Path.is_slash c); [reflexivity|].
    pose proof (components_nonempty a) as Hne.
    destruct (Path.components a) as [|x xs]; [contradiction|reflexivity].
Qed.

Lemma fold_walk_proper (d s : Path.dir) :
  Path.wf_dir d = true -> fold_left Path.walk d s = (s ++ d)%list.
Proof.
  revert s. induction d as [|c d IH]; intros s H; simpl.
  - rewrite List.app_nil_r. reflexivity.
  - simpl in H. apply andb_true_iff in H as [Hc Hd].
    rewrite (IH _ Hd). unfold Path.walk, Path.proper_name in *.
    apply andb_true_iff in Hc as [Hc _]. apply andb_true_iff in Hc as [H1 H2].
    apply negb_true_iff in H1, H2. rewrite H1, H2.
    rewrite <- List.app_assoc. reflexivity.
Qed.

Lemma slashed_components (d : Path.dir) (x : string) :
  Path.wf_dir d = true -> Path.has_slash x = false ->
  Path.components (x +:+ Str.concat (map (fun c => String Chr.slash c) d)) = x :: d.
Proof.
  revert x. induction d as [|c d IH]; intros x Hd Hx; simpl.
  - rewrite app_nil_r. apply components_single, Hx.
  - simpl in Hd. apply andb_true_iff in Hd as [Hc Hd].
    rewrite app_cons, components_app_slash, (components_single x Hx).
    rewrite IH; [reflexivity | exact Hd |].
    unfold Path.proper_name in Hc. apply andb_true_iff in Hc as [_ Hc].
    apply negb_true_iff, Hc.
Qed.

Lemma getcwd_nonempty (d : Path.dir) : Str.nonempty (Path.getcwd d) = true.
Proof. destruct d; reflexivity. Qed.

Lemma getcwd_absolute (d : Path.dir) : Path.is_absolute (Path.getcwd d) = true.
Proof. destruct d; reflexivity. Qed.

(** Changing to the path name that [os.getcwd()] returned leads back to
    the directory it was asked in. *)
Lemma resolve_getcwd (c d : Path.dir) :
  Path.wf_dir d = true -> Path.resolve c (Path.getcwd d) = d.
Proof.
  intros Hd. unfold Path.resolve. rewrite getcwd_absolute.
  destruct d as [|x d]; [reflexivity|].
  unfold Path.getcwd.
  change (Str.concat (map (fun c => String Chr.slash c) (x :: d)))
    with (EmptyString +:+ Str.concat (map (fun c => String Chr.slash c) (x :: d))).
  rewrite (slashed_components (x :: d) EmptyString Hd eq_refl).
  change (fold_left Path.walk (EmptyString :: x :: d) [])
    with (fold_left Path.walk (x :: d) (Path.walk [] EmptyString)).
  rewrite (walk_dots [] EmptyString eq_refl).
  apply (fold_walk_proper (x :: d) [] Hd).
Qed.

Lemma wf_dir_app (a b : Path.dir) :
  Path.wf_dir (a ++ b)%list = Path.wf_dir a && Path.wf_dir b.
Proof. apply forallb_app. Qed.

Lemma wf_dir_removelast (d : Path.dir) :
  Path.wf_dir d = true -> Path.wf_dir (removelast d) = true.
Proof.
  induction d as [|c d IH]; [reflexivity|].
  intros H. simpl in H. apply andb_true_iff in H as [Hc Hd].
  destruct d as [|c' d]; [reflexivity|].
  change (removelast (c :: c' :: d)) with (c :: removelast (c' :: d)).
  simpl. rewrite Hc. apply IH, Hd.
Qed.

Lemma wf_dir_walk (d : Path.dir) (c : string) :
  Path.wf_dir d = true -> Path.has_slash c = false ->
  Path.wf_dir (Path.walk d c) = true.
Proof.
  intros Hd Hc. unfold Path.walk.
  destruct (Path.is_dots c) eqn:H1; [exact Hd|].
  destruct (String.eqb c "..") eqn:H2; [apply wf_dir_removelast, Hd|].
  rewrite wf_dir_app, Hd. simpl. unfold Path.proper_name.
  rewrite H1, H2, Hc. reflexivity.
Qed.

Lemma wf_dir_fold (l : list string) (d : Path.dir) :
  Path.wf_dir d = true -> Forall (fun c => Path.has_slash c = false) l ->
  Path.wf_dir (fold_left Path.walk l d) = true.
Proof.
  revert d. induction l as [|c l IH]; intros d Hd Hl; [exact Hd|].
  inversion Hl; subst. simpl. apply IH; [apply wf_dir_walk|]; assumption.
Qed.

Lemma wf_dir_resolve (c : Path.dir) (p : string) :
  Path.wf_dir c = true -> Path.wf_dir (Path.resolve c p) = true.
Proof.
  intros Hc. unfold Path.resolve. apply wf_dir_fold.
  - destruct (Path.is_absolute p); [reflexivity | exact Hc].
  - apply components_no_slash.
Qed.

Lemma head_cons (c : ascii) (r : string) :
  Path.head (String c r) =
  if Path.has_slash (String c r) then String c (Path.head r) else EmptyString.
Proof. reflexivity. Qed.

Lemma head_no_slash (p : string) : Path.has_slash p = false -> Path.head p = EmptyString.
Proof. destruct p as [|c r]; [reflexivity|]. intros H. rewrite head_cons, H. reflexivity. Qed.

(** A path name with a slash splits at its last slash. *)
Lemma head_split (p : string) :
  Path.has_slash p = true ->
  exists h b, p = h +:+ String Chr.slash b /\ Path.has_slash b = false /\
              Path.head p = h +:+ String Chr.slash EmptyString.
Proof.
  induction p as [|c r IH]; [discriminate|].
  intros Hp. rewrite head_cons, Hp.
  destruct (Path.has_slash r) eqn:Hr.
  - destruct (IH eq_refl) as (h & b & -> & Hb & Hh).
    exists (String c h), b. rewrite Hh, !app_cons. auto.
  - simpl in Hp. rewrite Hr, orb_false_r in Hp. apply is_slash_true in Hp as ->.
    exists EmptyString, r. rewrite (head_no_slash r Hr), !app_nil_l. auto.
Qed.

Lemma fold_walk_dots (k : nat) (d : Path.dir) :
  fold_left Path.walk (repeat EmptyString k) d = d.
Proof. induction k as [|k IH]; [reflexivity|]. simpl. rewrite walk_dots by reflexivity. exact IH. Qed.

Lemma rstrip_slash_empty (s : string) :
  Path.rstrip_slash s = EmptyString -> Str.all Path.is_slash s = true.
Proof.
  induction s as [|c r IH]; [reflexivity|]. simpl.
  destruct (Path.rstrip_slash r); [|discriminate].
  destruct (Path.is_slash c); [|discriminate]. intros _. apply IH. reflexivity.
Qed.

Lemma components_cons (c : ascii) (r : string) :
  Path.components (String c r) =
  if Path.is_slash c then EmptyString :: Path.components r
  else match Path.components r with
       | [] => [String c EmptyString]
       | x :: xs => String c x :: xs
       end.
Proof. reflexivity. Qed.

Lemma rstrip_slash_cons (c : ascii) (r : string) :
  Path.rstrip_slash (String c r) =
  match Path.rstrip_slash r with
  | EmptyString => if Path.is_slash c then EmptyString else String c EmptyString
  | r' => String c r'
  end.
Proof. reflexivity. Qed.

(** Stripping trailing slashes only drops empty components. *)
Lemma rstrip_slash_components (s : string) :
  exists k, Path.components s =
            (Path.components (Path.rstrip_slash s) ++ repeat EmptyString k)%list.
Proof.
  induction s as [|c r IH]; [exists 0; reflexivity|].
  destruct IH as [k IH]. rewrite components_cons, rstrip_slash_cons, IH.
  destruct (Path.rstrip_slash r) as [|c' r'] eqn:Hr.
  - destruct (Path.is_slash c) eqn:Hc.
    + exists (S k). reflexivity.
    + exists k. rewrite components_cons, Hc. reflexivity.
  - exists k. rewrite (components_cons c (String c' r')).
    destruct (Path.is_slash c); [reflexivity|].
    pose proof (components_nonempty (String c' r')) as Hne.
    destruct (Path.components (String c' r')); [contradiction|reflexivity].
Qed.

Lemma rstrip_slash_absolute (s : string) :
  Str.all Path.is_slash s = false ->
  Path.is_absolute (Path.rstrip_slash s) = Path.is_absolute s.
Proof.
  destruct s as [|c r]; [reflexivity|]. simpl.
  destruct (Path.rstrip_slash r) eqn:Hr; [|reflexivity].
  rewrite (rstrip_slash_empty r Hr), andb_true_r. intros Hc.
  rewrite Hc. simpl. rewrite Hc. reflexivity.
Qed.

(** [dirname] and its argument are resolved from the same directory, and
    [dirname] leads to where the components before the last one lead. *)
Lemma fold_walk_dirname (h : string) (d : Path.dir) :
  let H := h +:+ String Chr.slash EmptyString in
  let dn := if Str.nonempty H && negb (Str.all Path.is_slash H)
            then Path.rstrip_slash H else H in
  Path.is_absolute dn = Path.is_absolute H /\
  fold_left Path.walk (Path.components dn) d =
  fold_left Path.walk (Path.components h) d.
Proof.
  intros H dn.
  assert (HH : fold_left Path.walk (Path.components H) d =
               fold_left Path.walk (Path.components h) d).
  { unfold H. rewrite components_app_slash, fold_left_app. simpl.
    apply walk_dots. reflexivity. }
  unfold dn. destruct (Str.nonempty H && negb (Str.all Path.is_slash H)) eqn:E.
  - apply andb_true_iff in E as [_ E]. apply negb_true_iff in E. split.
    + apply rstrip_slash_absolute, E.
    + rewrite <- HH. destruct (rstrip_slash_components H) as [k ->].
      rewrite fold_left_app, fold_walk_dots. reflexivity.
  - split; [reflexivity | exact HH].
Qed.

Lemma is_absolute_app (h r : string) :
  Path.is_absolute ((h +:+ String Chr.slash EmptyString) +:+ r) =
  Path.is_absolute (h +:+ String Chr.slash EmptyString).
Proof. destruct h; reflexivity. Qed.

Lemma no_slash_relative (p : string) :
  Path.has_slash p = false -> Path.is_absolute p = false.
Proof. destruct p as [|c r]; [reflexivity|]. simpl. intros H. apply orb_false_iff in H as [H _]. exact H. Qed.

Lemma walk_file (d : Path.dir) (b : string) :
  negb (Path.is_dots b) && negb (String.eqb b "..") = true ->
  Path.walk d b = (d ++ [b])%list.
Proof.
  intros H. apply andb_true_iff in H as [H1 H2]. apply negb_true_iff in H1, H2.
  unfold Path.walk. rewrite H1, H2. reflexivity.
Qed.

(** The directory that [os.path.dirname(filename)] names is the directory
    the file lies in. *)
Lemma resolve_dirname (c : Path.dir) (filename : string) :
  Path.names_file filename = true ->
  Path.resolve c (Path.dirname filename) = containing_dir (Path.resolve c filename).
Proof.
  intros Hf. unfold containing_dir, Path.names_file in *.
  destruct (Path.has_slash filename) eqn:Hs.
  - destruct (head_split filename Hs) as (h & b & -> & Hb & Hh).
    unfold Path.dirname. rewrite Hh.
    destruct (fold_walk_dirname h (if Path.is_absolute (h +:+ String Chr.slash EmptyString) then [] else c)) as [Ha Hw].
    cbv zeta in Ha, Hw. unfold Path.resolve. rewrite Ha, Hw.
    change (h +:+ String Chr.slash b) with (h +:+ (String Chr.slash EmptyString +:+ b)).
    rewrite <- app_assoc, is_absolute_app.
    rewrite app_assoc. change (String Chr.slash EmptyString +:+ b) with (String Chr.slash b).
    rewrite components_app_slash, (components_single b Hb) in Hf |- *.
    rewrite last_last in Hf. rewrite fold_left_app. simpl.
    rewrite (walk_file _ b Hf), removelast_last. reflexivity.
  - unfold Path.dirname. rewrite (head_no_slash _ Hs). simpl.
    unfold Path.resolve. rewrite (no_slash_relative _ Hs). simpl.
    rewrite (components_single _ Hs) in Hf |- *. simpl in Hf |- *.
    rewrite (walk_dots c EmptyString eq_refl), (walk_file _ _ Hf), removelast_last.
    reflexivity.
Qed.

(** ** The loop *)

(** Induction over a file object: an iteration reads one line or two. *)
Lemma lines_ind (P : list string -> Prop) :
  P [] ->
  (forall line rest, P rest -> P (tl rest) -> P (line :: rest)) ->
  forall input_fd, P input_fd.
Proof.
  intros H0 Hstep input_fd.
  enough (P input_fd /\ P (tl input_fd)) by tauto.
  induction input_fd as [|line rest [IH1 IH2]]; simpl; auto.
Qed.

Lemma add_1_S (n : nat) : n + 1 = S n.
Proof. lia. Qed.

Section ScanFacts.

Variable recurse : string -> state -> outcome * state.
Variable input_filename : string.

(** The loop leaves the working directory alone if the calls it makes
    do, and those calls start from the directory the loop started in. *)
Lemma scan_cwd (here : Path.dir) :
  (forall target st st',
      cwd st = here -> recurse target st = (Returned, st') -> cwd st' = here) ->
  forall input_fd line_number st st',
    cwd st = here ->
    scan recurse input_filename input_fd line_number st = (Returned, st') ->
    cwd st' = here.
Proof.
  intros Hrec input_fd.
  induction input_fd as [|line rest IH1 IH2] using lines_ind;
    intros n st st' Hst H; simpl in H.
  - injection H as <-. exact Hst.
  - destruct (Re.SHLDIGNORE_COMMENT_PATTERN line).
    + destruct rest as [|line2 rest2].
      * discriminate H.
      * destruct (Re.SOURCE_CMD_PATTERN line2); [|discriminate].
        simpl in H. eapply IH2; [|exact H]. exact Hst.
    + destruct (Re.SOURCE_CMD_PATTERN line).
      * destruct (source_target line) as [e|target]; [discriminate|].
        destruct (recurse target st) as [[| | |] st1] eqn:Hr; try discriminate.
        eapply IH1; [|exact H]. eapply Hrec; eauto.
      * eapply IH1; [|exact H]. exact Hst.
Qed.

(** Scanning lines that are neither directives nor inclusion statements
    copies them and calls nothing. *)
Lemma scan_ordinary (input_fd : list string) :
  Forall (fun line => Re.SHLDIGNORE_COMMENT_PATTERN line = false /\
                      Re.SOURCE_CMD_PATTERN line = false) input_fd ->
  forall line_number st,
    scan recurse input_filename input_fd line_number st =
    (Returned, write (Str.concat input_fd) st).
Proof.
  induction 1 as [|line rest [H1 H2] _ IH]; intros n st; simpl.
  - unfold write. rewrite app_nil_r. destruct st; reflexivity.
  - rewrite H1, H2, IH. unfold write. simpl. rewrite app_assoc. reflexivity.
Qed.

Lemma scan_cons line input_fd line_number st :
  scan recurse input_filename (line :: input_fd) line_number st =
  if Re.SHLDIGNORE_COMMENT_PATTERN line then
    match input_fd with
    | [] =>
        if negb (Re.SOURCE_CMD_PATTERN EmptyString)
        then (Exited IMPROPER_USE_OF_SHLDIGNORE
                (ShldignoreWithoutSource input_filename line_number), st)
        else (Returned, write EmptyString st)
    | line :: input_fd =>
        if negb (Re.SOURCE_CMD_PATTERN line)
        then (Exited IMPROPER_USE_OF_SHLDIGNORE
                (ShldignoreWithoutSource input_filename line_number), st)
        else scan recurse input_filename input_fd (line_number + 1 + 1) (write line st)
    end
  else if Re.SOURCE_CMD_PATTERN line then
    match source_target line with
    | inl e => (Raised e, st)
    | inr target =>
        match recurse target st with
        | (Returned, st) => scan recurse input_filename input_fd (line_number + 1) st
        | aborted => aborted
        end
    end
  else scan recurse input_filename input_fd (line_number + 1) (write line st).
Proof. reflexivity. Qed.

(** Once the lines of [before] are scanned to the end, the loop goes on
    with what follows them, having counted them. *)
Lemma scan_app (before : list string) :
  forall after line_number st st1,
    scan recurse input_filename before line_number st = (Returned, st1) ->
    scan recurse input_filename (before ++ after)%list line_number st =
    scan recurse input_filename after (line_number + length before) st1.
Proof.
  induction before as [|line rest IH1 IH2] using lines_ind;
    intros after n st st1 H.
  - injection H as <-. simpl. rewrite Nat.add_0_r. reflexivity.
  - change ((line :: rest) ++ after)%list with (line :: (rest ++ after)%list).
    rewrite scan_cons in H |- *.
    destruct (Re.SHLDIGNORE_COMMENT_PATTERN line).
    + destruct rest as [|line2 rest2]; [discriminate H|].
      change ((line2 :: rest2) ++ after)%list with (line2 :: (rest2 ++ after)%list).
      cbv beta iota in H |- *.
      destruct (Re.SOURCE_CMD_PATTERN line2); [|discriminate].
      simpl negb in H |- *. cbv iota in H |- *.
      rewrite (IH2 _ _ _ _ H). f_equal. simpl. lia.
    + destruct (Re.SOURCE_CMD_PATTERN line).
      * destruct (source_target line) as [e|target]; [discriminate|].
        destruct (recurse target st) as [[| | |] st2]; try discriminate.
        rewrite (IH1 _ _ _ _ H). f_equal. simpl. lia.
      * rewrite (IH1 _ _ _ _ H). f_equal. simpl. lia.
Qed.

End ScanFacts.

(** ** The working directory *)

Lemma pushd_cwd (input_filename : string) (st : state) :
  cwd (snd (pushd input_filename st)) =
  Path.resolve (cwd st) (Path.dirname input_filename).
Proof.
  unfold pushd. destruct (Path.dirname input_filename) as [|c r] eqn:E; reflexivity.
Qed.


Lemma pushd_streams (input_filename : string) (st : state) :
  same_streams (snd (pushd input_filename st)) st.
Proof.
  unfold pushd. destruct (Str.nonempty _); split; reflexivity.
Qed.

Lemma popd_streams (saved : option string) (st : state) :
  same_streams (popd saved st) st.
Proof.
  unfold popd. destruct saved as [d|]; [destruct (Str.nonempty d)|]; split; reflexivity.
Qed.

(** [popd] undoes [pushd] whatever happened in between, provided the
    directory was back where [pushd] had left it when nothing was saved. *)
Lemma popd_pushd (input_filename : string) (st st2 : state) :
  Path.wf_dir (cwd st) = true ->
  cwd st2 = cwd (snd (pushd input_filename st)) ->
  cwd (popd (fst (pushd input_filename st)) st2) = cwd st.
Proof.
  intros Hwf H2. unfold pushd in *.
  destruct (Str.nonempty (Path.dirname input_filename)); simpl in *.
  - rewrite getcwd_nonempty. simpl. apply resolve_getcwd, Hwf.
  - exact H2.
Qed.

Lemma interpreter_line_cwd depth input_fd st input_fd' n st' :
  interpreter_line depth input_fd st = inr (input_fd', n, st') -> cwd st' = cwd st.
Proof.
  unfold interpreter_line. destruct depth.
  - destruct (readline input_fd) as [line fd]. destruct (Re.search_shell line); [|discriminate].
    destruct (negb (supported s)); [discriminate|]. intros [= _ _ <-]. reflexivity.
  - intros [= _ _ <-]. reflexivity.
Qed.

Lemma process_file_S fs fuel input_filename depth st :
  process_file fs (S fuel) input_filename depth st =
  match fs_open fs (cwd (note_open input_filename st)) input_filename with
  | None => (Exited OPEN_FAILED (FailedToOpen input_filename),
             note_open input_filename st)
  | Some content =>
      match interpreter_line depth (readlines content)
              (note_open input_filename st) with
      | inl aborted => aborted
      | inr (input_fd, line_number, st) =>
          let (saved_cwd, st) := pushd input_filename st in
          match scan (fun target => process_file fs fuel target (depth + 1))
                  input_filename input_fd line_number st with
          | (Returned, st) => (Returned, popd saved_cwd st)
          | aborted => aborted
          end
      end
  end.
Proof. reflexivity. Qed.

(** ** The working directory against the explicit directory *)

(** Both runs stopped, in states that [H] relates. *)
Ltac aborted_alike H :=
  repeat split; try apply H; try discriminate; try (intros; assumption).

Lemma same_streams_write (line : string) (a b : state) :
  same_streams a b -> same_streams (write line a) (write line b).
Proof. intros [Ho Hl]. split; simpl; congruence. Qed.

Lemma same_streams_trans (a b c : state) :
  same_streams a b -> same_streams b c -> same_streams a c.
Proof. intros [? ?] [? ?]. split; congruence. Qed.

Lemma scan_simulates rec1 rec2 (input_filename : string) (here : Path.dir) :
  (forall target s1 s2,
      cwd s1 = here -> same_streams s1 s2 ->
      tracks here (rec1 target s1) (rec2 target s2)) ->
  forall input_fd line_number s1 s2,
    cwd s1 = here -> same_streams s1 s2 ->
    tracks here (scan rec1 input_filename input_fd line_number s1)
                (scan rec2 input_filename input_fd line_number s2).
Proof.
  intros Hrec input_fd.
  induction input_fd as [|line rest IH1 IH2] using lines_ind;
    intros n s1 s2 Hc Hs.
  - aborted_alike Hs.
  - rewrite !scan_cons. destruct (Re.SHLDIGNORE_COMMENT_PATTERN line).
    + destruct rest as [|line2 rest2].
      * aborted_alike Hs.
      * destruct (Re.SOURCE_CMD_PATTERN line2); simpl negb; cbv iota.
        -- apply IH2; [exact Hc | apply same_streams_write, Hs].
        -- aborted_alike Hs.
    + destruct (Re.SOURCE_CMD_PATTERN line).
      * destruct (source_target line) as [e|target].
        { aborted_alike Hs. }
        destruct (Hrec target s1 s2 Hc Hs) as (Ho & Hss & Hcwd).
        destruct (rec1 target s1) as [o1 t1], (rec2 target s2) as [o2 t2].
        simpl in Ho, Hss, Hcwd. subst o2.
        destruct o1; try solve [aborted_alike Hss].
        apply IH1; [apply Hcwd; reflexivity | exact Hss].
      * apply IH1; [exact Hc | apply same_streams_write, Hs].
Qed.

Lemma interpreter_line_simulates depth input_fd (a b : state) :
  same_streams a b ->
  match interpreter_line depth input_fd a, interpreter_line depth input_fd b with
  | inl (o1, a'), inl (o2, b') =>
      o1 = o2 /\ o1 <> Returned /\ same_streams a' b'
  | inr (fd1, n1, a'), inr (fd2, n2, b') =>
      fd1 = fd2 /\ n1 = n2 /\ same_streams a' b' /\ cwd a' = cwd a
  | _, _ => False
  end.
Proof.
  intros Hs. unfold interpreter_line. destruct depth; [|auto].
  destruct (readline input_fd) as [line fd].
  destruct (Re.search_shell line) as [shell|].
  - destruct (negb (supported shell)).
    + aborted_alike Hs.
    + repeat split; apply (same_streams_write line _ _ Hs).
  - aborted_alike Hs.
Qed.

Lemma fs_open_names_file fs c filename content :
  fs_open fs c filename = Some content -> Path.names_file filename = true.
Proof. unfold fs_open. destruct (Path.names_file filename); [reflexivity|discriminate]. Qed.

Lemma expand_at_S fs fuel base input_filename depth st :
  expand_at fs (S fuel) base input_filename depth st =
  let location := Path.resolve base input_filename in
  let st := State (cwd st) (output st) (opened st ++ [location])%list in
  match fs_open fs base input_filename with
  | None => (Exited OPEN_FAILED (FailedToOpen input_filename), st)
  | Some content =>
      match interpreter_line depth (readlines content) st with
      | inl aborted => aborted
      | inr (input_fd, line_number, st) =>
          scan (fun target =>
                  expand_at fs fuel (containing_dir location) target (depth + 1))
               input_filename input_fd line_number st
      end
  end.
Proof. reflexivity. Qed.

(** Running with the working directory of the process and running with
    the directory of each file passed along explicitly end the same way,
    write the same output and open the same files. *)
Lemma process_file_simulates (fs : filesystem) (fuel : nat) :
  forall input_filename depth s1 s2,
    Path.wf_dir (cwd s1) = true -> same_streams s1 s2 ->
    tracks (cwd s1)
      (process_file fs fuel input_filename depth s1)
      (expand_at fs fuel (cwd s1) input_filename depth s2).
Proof.
  induction fuel as [|fuel IH]; intros f depth s1 s2 Hwf Hs.
  - aborted_alike Hs.
  - rewrite process_file_S, expand_at_S. cbv zeta.
    change (cwd (note_open f s1)) with (cwd s1).
    set (t1 := note_open f s1).
    set (t2 := State (cwd s2) (output s2) (opened s2 ++ [Path.resolve (cwd s1) f])%list).
    assert (Ht : same_streams t1 t2).
    { destruct Hs as [Ho Hl]. split; simpl; congruence. }
    destruct (fs_open fs (cwd s1) f) as [content|] eqn:Hopen.
    2:{ aborted_alike Ht. }
    pose proof (interpreter_line_simulates depth (readlines content) t1 t2 Ht) as Hi.
    destruct (interpreter_line depth (readlines content) t1) as [[o1 a']|[[fd1 n1] a']],
             (interpreter_line depth (readlines content) t2) as [[o2 b']|[[fd2 n2] b']];
      try contradiction.
    { destruct Hi as (-> & Hne & Hab). repeat split; try apply Hab.
      simpl. intros E. contradiction. }
    destruct Hi as (-> & -> & Hab & Hca). change (cwd t1) with (cwd s1) in Hca.
    pose proof (pushd_cwd f a') as Hpc. pose proof (pushd_streams f a') as Hps.
    pose proof (popd_pushd f a') as Hpop.
    destruct (pushd f a') as [saved a''] eqn:Hp. simpl in Hpc, Hps, Hpop.
    rewrite Hca, (resolve_dirname _ _ (fs_open_names_file _ _ _ _ Hopen)) in Hpc.
    assert (Hwf' : Path.wf_dir (containing_dir (Path.resolve (cwd s1) f)) = true).
    { apply wf_dir_removelast, wf_dir_resolve, Hwf. }
    pose proof (scan_simulates
                  (fun target => process_file fs fuel target (depth + 1))
                  (fun target => expand_at fs fuel
                     (containing_dir (Path.resolve (cwd s1) f)) target (depth + 1))
                  f (containing_dir (Path.resolve (cwd s1) f))) as Hscan.
    specialize (Hscan (fun target u1 u2 Hu Huu =>
      eq_rect (cwd u1)
        (fun d => tracks d (process_file fs fuel target (depth + 1) u1)
                           (expand_at fs fuel d target (depth + 1) u2))
        (IH target (depth + 1) u1 u2
            (eq_ind_r (fun d => Path.wf_dir d = true) Hwf' Hu) Huu)
        _ Hu)).
    specialize (Hscan fd2 n2 a'' b' Hpc (same_streams_trans _ _ _ Hps Hab)).
    destruct Hscan as (Ho & Hss & Hcwd).
    destruct (scan _ f fd2 n2 a'') as [o1 u1], (scan _ f fd2 n2 b') as [o2 u2].
    simpl in Ho, Hss, Hcwd. subst o2.
    destruct o1; try solve [aborted_alike Hss].
    repeat split; simpl.
    + destruct (popd_streams saved u1) as [E _]. rewrite E. apply Hss.
    + destruct (popd_streams saved u1) as [_ E]. rewrite E. apply Hss.
    + intros _. rewrite Hpop; [exact Hca | rewrite Hca; exact Hwf |].
      rewrite Hpc. apply Hcwd. reflexivity.
Qed.

(** ** Line classes *)

Lemma hash_only_lowers_to_hash (c : ascii) :
  Chr.eqb "#"%char (Chr.lower c) = true -> c = "#"%char.
Proof.
  destruct c as [[] [] [] [] [] [] [] []]; vm_compute; intros H;
    solve [reflexivity | discriminate H].
Qed.

(** No line is both an inclusion statement and an ignore directive. *)
Lemma source_not_directive (line : string) :
  Re.SOURCE_CMD_PATTERN line = true -> Re.SHLDIGNORE_COMMENT_PATTERN line = false.
Proof.
  unfold Re.SOURCE_CMD_PATTERN, Re.SHLDIGNORE_COMMENT_PATTERN.
  destruct (Str.dropwhile Chr.re_space line) as [|c r]; [reflexivity|].
  change (Str.startswith_via Chr.lower "#shldignore" (String c r))
    with (if Chr.eqb "#"%char (Chr.lower c)
          then Str.startswith_via Chr.lower "shldignore" r else None).
  destruct (Chr.eqb "#"%char (Chr.lower c)) eqn:E; [|reflexivity].
  apply hash_only_lowers_to_hash in E as ->. discriminate.
Qed.

Lemma interpreter_line_nested depth input_fd st :
  interpreter_line (depth + 1) input_fd st = inr (input_fd, 0, st).
Proof. rewrite add_1_S. reflexivity. Qed.

(** ** Pasting *)

Lemma scan_pastes (fs : filesystem) here lines text :
  pasted fs here lines text ->
  Path.wf_dir here = true ->
  exists fuel0, forall fuel depth input_filename line_number st,
    fuel0 <= fuel -> cwd st = here ->
    exists st',
      scan (fun target => process_file fs fuel target (depth + 1))
           input_filename lines line_number st = (Returned, st') /\
      output st' = output st +:+ text /\ cwd st' = here.
Proof.
  induction 1 as [here
                 |here line rest text Hd Hs _ IH
                 |here line rest target content inner text Hs Ht Hopen _ IHin _ IHrest];
    intros Hwf.
  - exists 0. intros fuel depth f n st _ Hc. exists st.
    rewrite app_nil_r. auto.
  - destruct (IH Hwf) as [fuel0 IH']. exists fuel0.
    intros fuel depth f n st Hle Hc. rewrite scan_cons, Hd, Hs.
    destruct (IH' fuel depth f (n + 1) (write line st) Hle Hc) as (st' & E & Ho & Hc').
    exists st'. rewrite E, Ho. simpl. rewrite app_assoc. auto.
  - assert (Hwf' : Path.wf_dir (containing_dir (Path.resolve here target)) = true)
      by apply wf_dir_removelast, wf_dir_resolve, Hwf.
    destruct (IHin Hwf') as [n1 IH1]. destruct (IHrest Hwf) as [n2 IH2].
    exists (Nat.max (S n1) n2).
    intros fuel depth f n st Hle Hc.
    destruct fuel as [|fuel]; [lia|].
    rewrite scan_cons, (source_not_directive _ Hs), Hs, Ht.
    rewrite process_file_S. change (cwd (note_open target st)) with (cwd st).
    rewrite Hc, Hopen, interpreter_line_nested.
    pose proof (pushd_cwd target (note_open target st)) as Hpc.
    pose proof (pushd_streams target (note_open target st)) as [Hpo _].
    pose proof (popd_pushd target (note_open target st)) as Hpop.
    destruct (pushd target (note_open target st)) as [saved st2].
    simpl in Hpc, Hpo, Hpop. rewrite Hc in Hpc, Hpop.
    rewrite (resolve_dirname _ _ (fs_open_names_file _ _ _ _ Hopen)) in Hpc.
    destruct (IH1 fuel (depth + 1) target 0 st2 ltac:(lia) Hpc) as (st3 & E3 & Ho3 & Hc3).
    rewrite E3.
    assert (Hback : cwd (popd saved st3) = here)
      by (apply Hpop; [exact Hwf | rewrite Hc3, Hpc; reflexivity]).
    destruct (IH2 (S fuel) depth f (n + 1) (popd saved st3) ltac:(lia) Hback)
      as (st4 & E4 & Ho4 & Hc4).
    exists st4. rewrite E4, Ho4. destruct (popd_streams saved st3) as [-> _].
    rewrite Ho3, Hpo, app_assoc. auto.
Qed.

Lemma concat_readlines (content : string) : Str.concat (readlines content) = content.
Proof.
  induction content as [|c r IH]; [reflexivity|]. simpl.
  destruct (Chr.eqb c Chr.newline).
  - simpl. rewrite IH. reflexivity.
  - destruct (readlines r) as [|l ls]; simpl in *; rewrite <- IH; reflexivity.
Qed.

Lemma readlines_nonempty (content : string) :
  Forall (fun line => Str.nonempty line = true) (readlines content).
Proof.
  induction content as [|c r IH]; simpl; [constructor|].
  destruct (Chr.eqb c Chr.newline); [constructor; [reflexivity|exact IH]|].
  destruct (readlines r); [repeat constructor|].
  inversion IH; subst. constructor; [reflexivity|assumption].
Qed.

(** ** The interpreter pattern *)

Lemma search_shell_eq (line : string) :
  Re.search_shell line =
  match Re.shell_tail line with
  | Some tok => Some tok
  | None =>
      match line with
      | EmptyString => None
      | String _ r => Re.search_shell r
      end
  end.
Proof. destruct line; reflexivity. Qed.

Lemma all_app (p : ascii -> bool) (a b : string) :
  Str.all p (a +:+ b) = Str.all p a && Str.all p b.
Proof.
  induction a as [|c a IH]; [reflexivity|].
  rewrite app_cons. simpl. rewrite IH, andb_assoc. reflexivity.
Qed.

Lemma all_last (p : ascii -> bool) (s : string) (c : ascii) :
  last_char s = Some c -> p c = false -> Str.all p s = false.
Proof.
  induction s as [|x s IH]; [discriminate|].
  intros Hl Hc. simpl. destruct s as [|y s].
  - injection Hl as ->. rewrite Hc. reflexivity.
  - rewrite (IH Hl Hc). apply andb_false_r.
Qed.

Lemma span_all (p : ascii -> bool) (a b : string) :
  Str.all p a = true ->
  match b with String c _ => p c = false | EmptyString => True end ->
  Str.span p (a +:+ b) = (a, b).
Proof.
  intros Ha Hb. induction a as [|c a IH].
  - rewrite app_nil_l. destruct b as [|c b]; [reflexivity|]. simpl. rewrite Hb. reflexivity.
  - simpl in Ha. apply andb_true_iff in Ha as [Hc Ha].
    rewrite app_cons. simpl. rewrite Hc, (IH Ha). reflexivity.
Qed.

Lemma span_blocked (p : ascii -> bool) (a b : string) :
  Str.all p a = false ->
  Str.span p (a +:+ b) = (fst (Str.span p a), snd (Str.span p a) +:+ b).
Proof.
  induction a as [|c a IH]; [discriminate|].
  intros Ha. rewrite app_cons. simpl in Ha |- *.
  destruct (p c); [|reflexivity].
  rewrite (IH Ha). destruct (Str.span p a). reflexivity.
Qed.


Lemma shell_char_not_space (c : ascii) :
  Chr.shell_char c = true -> Chr.re_space c = false.
Proof.
  unfold Chr.shell_char. intros H. apply andb_true_iff in H as [_ H].
  apply negb_true_iff, H.
Qed.

Lemma space_not_shell_char (c : ascii) :
  Chr.re_space c = true -> Chr.shell_char c = false.
Proof. unfold Chr.shell_char. intros ->. apply andb_false_r. Qed.

Lemma word_not_spaces (shell : string) :
  Str.nonempty shell = true -> Str.all Chr.shell_char shell = true ->
  Str.all Chr.re_space shell = false.
Proof.
  destruct shell as [|c r]; [discriminate|]. simpl. intros _ H.
  apply andb_true_iff in H as [H _]. rewrite (shell_char_not_space c H). reflexivity.
Qed.

Lemma shell_tail_word (shell trail : string) :
  Str.nonempty shell = true -> Str.all Chr.shell_char shell = true ->
  Str.all Chr.re_space trail = true ->
  Re.shell_tail (shell +:+ trail) = Some shell.
Proof.
  intros Hne Hall Htr. unfold Re.shell_tail. rewrite span_all.
  - rewrite Hne, Htr. reflexivity.
  - exact Hall.
  - destruct trail as [|c t]; [exact I|]. simpl in Htr.
    apply andb_true_iff in Htr as [Hc _]. apply space_not_shell_char, Hc.
Qed.

Lemma shell_tail_blocked (before shell trail : string) (c : ascii) :
  last_char before = Some c -> Chr.shell_char c = false ->
  Str.nonempty shell = true -> Str.all Chr.shell_char shell = true ->
  Re.shell_tail (before +:+ shell +:+ trail) = None.
Proof.
  intros Hl Hc Hne Hall. unfold Re.shell_tail.
  rewrite (span_blocked _ _ _ (all_last _ _ _ Hl Hc)).
  rewrite !all_app, (word_not_spaces shell Hne Hall), andb_false_r, andb_false_r.
  reflexivity.
Qed.

Lemma last_char_none (s : string) : last_char s = None -> s = EmptyString.
Proof.
  induction s as [|c s IH]; [reflexivity|]. simpl.
  destruct s as [|y s]; [discriminate|]. intros H. discriminate (IH H).
Qed.

(** The search finds the last word of the line. *)
Lemma search_shell_word (line shell : string) :
  ends_with_word line shell -> Re.search_shell line = Some shell.
Proof.
  intros (before & trail & -> & Hlast & Hne & Hall & Htr).
  induction before as [|c b IH].
  - rewrite app_nil_l, search_shell_eq, (shell_tail_word _ _ Hne Hall Htr). reflexivity.
  - destruct (last_char (String c b)) as [c0|] eqn:Hl.
    2:{ discriminate (last_char_none _ Hl). }
    rewrite search_shell_eq, (shell_tail_blocked _ _ _ _ Hl Hlast Hne Hall).
    rewrite app_cons. apply IH.
    simpl in Hl. destruct b as [|y b]; [exact I|]. rewrite Hl. exact Hlast.
Qed.

(** A line of slashes and white space has no interpreter name. *)
Lemma search_shell_none (line : string) :
  Str.all (fun c => Path.is_slash c || Chr.re_space c) line = true ->
  Re.search_shell line = None.
Proof.
  induction line as [|c r IH]; [reflexivity|].
  simpl Str.all. intros H. apply andb_true_iff in H as [Hc Hr].
  rewrite search_shell_eq.
  assert (E : Re.shell_tail (String c r) = None).
  { unfold Re.shell_tail. simpl.
    assert (Hs : Chr.shell_char c = false).
    { unfold Chr.shell_char. unfold Path.is_slash in Hc.
      destruct (Chr.eqb c Chr.slash); [reflexivity|]. simpl in Hc |- *.
      rewrite Hc. reflexivity. }
    rewrite Hs. reflexivity. }
  rewrite E. apply IH, Hr.
Qed.

Lemma span_split (p : ascii -> bool) (s : string) :
  s = fst (Str.span p s) +:+ snd (Str.span p s) /\
  Str.all p (fst (Str.span p s)) = true /\
  match snd (Str.span p s) with
  | String c _ => p c = false
  | EmptyString => True
  end.
Proof.
  induction s as [|c r (IH1 & IH2 & IH3)]; [repeat split|].
  simpl. destruct (p c) eqn:Hc.
  - destruct (Str.span p r) as [a b]. simpl in *.
    rewrite app_cons, <- IH1, Hc, IH2. repeat split. exact IH3.
  - simpl. rewrite Hc. repeat split.
Qed.

Lemma shell_tail_some (s tok : string) :
  Re.shell_tail s = Some tok ->
  exists trail, s = tok +:+ trail /\ Str.nonempty tok = true /\
                Str.all Chr.shell_char tok = true /\
                Str.all Chr.re_space trail = true.
Proof.
  unfold Re.shell_tail. destruct (span_split Chr.shell_char s) as (E & Ha & _).
  destruct (Str.span Chr.shell_char s) as [a b]. simpl in E, Ha.
  destruct (Str.nonempty a && Str.all Chr.re_space b) eqn:H; [|discriminate].
  intros [= <-]. apply andb_true_iff in H as [H1 H2]. exists b. auto.
Qed.

Lemma dropwhile_split (p : ascii -> bool) (s : string) :
  exists ws, s = ws +:+ Str.dropwhile p s /\ Str.all p ws = true.
Proof.
  induction s as [|c r (ws & E & H)]; [exists EmptyString; auto|].
  simpl. destruct (p c) eqn:Hc.
  - exists (String c ws). rewrite app_cons, <- E. simpl. rewrite Hc, H. auto.
  - exists EmptyString. auto.
Qed.

Lemma dropwhile_app (p : ascii -> bool) (ws s : string) :
  Str.all p ws = true ->
  match s with String c _ => p c = false | EmptyString => True end ->
  Str.dropwhile p (ws +:+ s) = s.
Proof.
  intros Hws Hs. induction ws as [|c ws IH].
  - rewrite app_nil_l. destruct s as [|c r]; [reflexivity|]. simpl. rewrite Hs. reflexivity.
  - simpl in Hws. apply andb_true_iff in Hws as [Hc Hws].
    rewrite app_cons. simpl. rewrite Hc. apply IH, Hws.
Qed.

Lemma startswith_via_id (k s r : string) :
  Str.strip_prefix k s = Some r -> s = k +:+ r.
Proof.
  unfold Str.strip_prefix. revert s. induction k as [|a k IH]; intros s; simpl.
  - intros [= ->]. reflexivity.
  - destruct s as [|b s]; [discriminate|].
    destruct (Chr.eqb a b) eqn:E; [|discriminate].
    apply Ascii.eqb_eq in E as ->. intros H. rewrite app_cons, (IH _ H). reflexivity.
Qed.

(** ** The output only grows *)

Lemma scan_output_grows rec (input_filename : string) :
  (forall target st, exists more, output (snd (rec target st)) = output st +:+ more) ->
  forall input_fd line_number st,
    exists more,
      output (snd (scan rec input_filename input_fd line_number st)) =
      output st +:+ more.
Proof.
  intros Hrec input_fd.
  induction input_fd as [|line rest IH1 IH2] using lines_ind; intros n st.
  - exists EmptyString. simpl. rewrite app_nil_r. reflexivity.
  - rewrite scan_cons. destruct (Re.SHLDIGNORE_COMMENT_PATTERN line).
    + destruct rest as [|line2 rest2].
      * exists EmptyString. simpl. rewrite app_nil_r. reflexivity.
      * destruct (Re.SOURCE_CMD_PATTERN line2); simpl negb; cbv iota.
        -- destruct (IH2 (n + 1 + 1) (write line2 st)) as [more E].
           exists (line2 +:+ more). simpl in E. rewrite E. simpl. apply app_assoc.
        -- exists EmptyString. simpl. rewrite app_nil_r. reflexivity.
    + destruct (Re.SOURCE_CMD_PATTERN line).
      * destruct (source_target line) as [e|target].
        { exists EmptyString. simpl. rewrite app_nil_r. reflexivity. }
        destruct (Hrec target st) as [more1 E1].
        destruct (rec target st) as [o st1]. simpl in E1.
        destruct o; try (exists more1; exact E1).
        destruct (IH1 (n + 1) st1) as [more E]. exists (more1 +:+ more).
        rewrite E, E1. apply app_assoc.
      * destruct (IH1 (n + 1) (write line st)) as [more E].
        exists (line +:+ more). rewrite E. simpl. apply app_assoc.
Qed.

Lemma process_file_output_grows (fs : filesystem) (fuel : nat) :
  forall input_filename depth st,
    exists more,
      output (snd (process_file fs fuel input_filename depth st)) =
      output st +:+ more.
Proof.
  induction fuel as [|fuel IH]; intros f depth st.
  - exists EmptyString. simpl. rewrite app_nil_r. reflexivity.
  - rewrite process_file_S.
    destruct (fs_open fs (cwd (note_open f st)) f) as [content|].
    2:{ exists EmptyString. simpl. rewrite app_nil_r. reflexivity. }
    assert (Hi : match interpreter_line depth (readlines content) (note_open f st) with
                 | inl (_, st') => output st' = output st
                 | inr (_, _, st') => exists more, output st' = output st +:+ more
                 end).
    { unfold interpreter_line. destruct depth.
      - destruct (readline (readlines content)) as [line fd].
        destruct (Re.search_shell line) as [shell|]; [|reflexivity].
        destruct (negb (supported shell)); [reflexivity|]. exists line. reflexivity.
      - exists EmptyString. simpl. rewrite app_nil_r. reflexivity. }
    destruct (interpreter_line depth (readlines content) (note_open f st))
      as [[o st1]|[[fd n] st1]].
    { exists EmptyString. simpl. rewrite Hi, app_nil_r. reflexivity. }
    destruct Hi as [more1 E1].
    pose proof (pushd_streams f st1) as [Hp _].
    destruct (pushd f st1) as [saved st2]. simpl in Hp.
    destruct (scan_output_grows
                (fun target => process_file fs fuel target (depth + 1)) f
                (fun target s => IH target (depth + 1) s) fd n st2) as [more E].
    destruct (scan _ f fd n st2) as [o st3]. simpl in E.
    exists (more1 +:+ more).
    assert (Hout : output st3 = output st +:+ more1 +:+ more).
    { rewrite E, Hp, E1. apply app_assoc. }
    destruct o; simpl; try exact Hout.
    destruct (popd_streams saved st3) as [-> _]. exact Hout.
Qed.

(** * The claims *)

(** C1.  For a top-level script whose first line names a supported
    interpreter, and whose inclusion statements (in the script and in the
    files it includes, to any depth) all name files that open, with no
    ignore directive anywhere, a run with enough recursion budget returns
    and its output is the interpreter line followed by the text obtained by
    pasting, depth first and from left to right, the expanded content of
    the named file in place of each inclusion statement, every other line
    being copied in order. *)
Theorem process_file_pastes_inclusions
    (fs : filesystem) (start : Path.dir) (filename content first : string)
    (body : list string) (shell text : string) :
  Path.wf_dir start = true ->
  fs_open fs start filename = Some content ->
  readlines content = first :: body ->
  Re.search_shell first = Some shell ->
  supported shell = true ->
  pasted fs (containing_dir (Path.resolve start filename)) body text ->
  exists fuel0, forall fuel, fuel0 <= fuel ->
    exists st', shld fs fuel start filename = (Returned, st') /\
                output st' = first +:+ text.
Proof.
  intros Hwf Hopen Hlines Hshell Hsup Hp.
  destruct (scan_pastes _ _ _ _ Hp) as [n0 Hscan].
  { apply wf_dir_removelast, wf_dir_resolve, Hwf. }
  exists (S n0). intros fuel Hle. destruct fuel as [|fuel]; [lia|].
  unfold shld. rewrite process_file_S.
  change (cwd (note_open filename (initial start))) with start.
  rewrite Hopen, Hlines. unfold interpreter_line, readline.
  rewrite Hshell, Hsup. simpl negb. cbv iota.
  set (st1 := write first (note_open filename (initial start))).
  pose proof (pushd_cwd filename st1) as Hpc.
  pose proof (pushd_streams filename st1) as [Hpo _].
  destruct (pushd filename st1) as [saved st2]. simpl in Hpc, Hpo.
  change (cwd st1) with start in Hpc.
  rewrite (resolve_dirname _ _ (fs_open_names_file _ _ _ _ Hopen)) in Hpc.
  destruct (Hscan fuel 0 filename 1 st2 ltac:(lia) Hpc) as (st3 & E & Ho & _).
  rewrite E. exists (popd saved st3). split; [reflexivity|].
  destruct (popd_streams saved st3) as [-> _]. rewrite Ho, Hpo. reflexivity.
Qed.

Lemma process_file_pastes_inclusions_witness :
  exists fuel0, forall fuel, fuel0 <= fuel ->
    exists st',
      shld Sample.nested fuel ["t"] "resources/relpath-and-recursion.sh"
      = (Returned, st') /\
      output st' =
      Sample.ln "#!/bin/bash" +:+
      (Sample.ln "echo top" +:+
       ((Sample.ln "echo one" +:+ ((Sample.ln "echo two" +:+ EmptyString) +:+ EmptyString))
        +:+ (Sample.ln "echo end" +:+ EmptyString))).
Proof.
  apply (process_file_pastes_inclusions Sample.nested ["t"]
           "resources/relpath-and-recursion.sh"
           (Sample.ln "#!/bin/bash" +:+ Sample.ln "echo top" +:+
            Sample.ln ". include_level_1/include1.sh" +:+ Sample.ln "echo end")
           (Sample.ln "#!/bin/bash")
           [Sample.ln "echo top"; Sample.ln ". include_level_1/include1.sh";
            Sample.ln "echo end"]
           "bash").
  - reflexivity.
  - vm_compute. reflexivity.
  - vm_compute. reflexivity.
  - vm_compute. reflexivity.
  - reflexivity.
  - apply pasted_copy; [reflexivity | reflexivity |].
    apply (pasted_include Sample.nested _ _ _ "include_level_1/include1.sh"
             (Sample.ln "echo one" +:+ Sample.ln "source include_level_2/include2.sh"));
      [reflexivity | reflexivity | vm_compute; reflexivity | |].
    + apply (pasted_copy Sample.nested _ (Sample.ln "echo one"));
        [reflexivity | reflexivity |].
      apply (pasted_include Sample.nested _
               (Sample.ln "source include_level_2/include2.sh") []
               "include_level_2/include2.sh" (Sample.ln "echo two"));
        [reflexivity | reflexivity | vm_compute; reflexivity | |].
      * apply (pasted_copy Sample.nested _ (Sample.ln "echo two"));
          [reflexivity | reflexivity | apply pasted_end].
      * apply pasted_end.
    + apply (pasted_copy Sample.nested _ (Sample.ln "echo end"));
        [reflexivity | reflexivity | apply pasted_end].
Defined.

(** C7.  A file without inclusion statements and without ignore directives
    (whose first line, at depth 0, names a supported interpreter) is copied
    to the output unchanged: the output grows by exactly the content of
    the file. *)
Theorem passthrough_is_identity
    (fs : filesystem) (fuel : nat) (filename : string) (depth : nat)
    (st : state) (content : string) :
  fs_open fs (cwd st) filename = Some content ->
  Forall (fun line => Re.SHLDIGNORE_COMMENT_PATTERN line = false /\
                      Re.SOURCE_CMD_PATTERN line = false) (readlines content) ->
  (depth = 0 ->
   exists shell, Re.search_shell (fst (readline (readlines content))) = Some shell /\
                 supported shell = true) ->
  exists st', process_file fs (S fuel) filename depth st = (Returned, st') /\
              output st' = output st +:+ content.
Proof.
  intros Hopen Hall Hshell. rewrite process_file_S.
  change (cwd (note_open filename st)) with (cwd st). rewrite Hopen.
  pose proof (concat_readlines content) as Hcat.
  destruct depth as [|depth].
  - destruct (Hshell eq_refl) as (shell & Hs & Hsup).
    destruct (readlines content) as [|first body]; [discriminate Hs|].
    unfold interpreter_line. simpl readline in *. simpl fst in Hs.
    cbv beta iota. rewrite Hs, Hsup. simpl negb. cbv iota.
    inversion Hall as [|? ? _ Hbody]; subst.
    pose proof (pushd_streams filename (write first (note_open filename st))) as [Hp _].
    destruct (pushd filename (write first (note_open filename st))) as [saved st2].
    rewrite (scan_ordinary _ _ _ Hbody). eexists. split; [reflexivity|].
    destruct (popd_streams saved (write (Str.concat body) st2)) as [-> _].
    simpl in Hp |- *. rewrite Hp, app_assoc. reflexivity.
  - change (interpreter_line (S depth) (readlines content) (note_open filename st))
      with (@inr (outcome * state) _ (readlines content, 0, note_open filename st)).
    cbv iota beta.
    pose proof (pushd_streams filename (note_open filename st)) as [Hp _].
    destruct (pushd filename (note_open filename st)) as [saved st2].
    rewrite (scan_ordinary _ _ _ Hall). eexists. split; [reflexivity|].
    destruct (popd_streams saved (write (Str.concat (readlines content)) st2)) as [-> _].
    simpl in Hp |- *. rewrite Hp, Hcat. reflexivity.
Qed.

Lemma passthrough_is_identity_witness :
  exists st',
    process_file Sample.scripts 1 "simple.sh" 0 (initial []) = (Returned, st') /\
    output st' =
    output (initial []) +:+
    (Sample.ln "#!/bin/sh" +:+ Sample.ln "echo a" +:+ "echo b").
Proof.
  apply (passthrough_is_identity Sample.scripts 0 "simple.sh" 0 (initial [])).
  - vm_compute. reflexivity.
  - vm_compute. repeat (constructor; [split; reflexivity|]). constructor.
  - intros _. exists "sh". vm_compute. split; reflexivity.
Defined.

(** C8.  A call of [process_file] that returns leaves the working directory
    of the process as it was when the call began, whatever the depth and
    whatever directory the caller had switched to. *)
Theorem process_file_restores_cwd
    (fs : filesystem) (fuel : nat) (input_filename : string) (depth : nat)
    (st st' : state) :
  Path.wf_dir (cwd st) = true ->
  process_file fs fuel input_filename depth st = (Returned, st') ->
  cwd st' = cwd st.
Proof.
  revert input_filename depth st st'.
  induction fuel as [|fuel IH]; intros f depth st st' Hwf H; [discriminate|].
  rewrite process_file_S in H.
  destruct (fs_open fs (cwd (note_open f st)) f) as [content|]; [|discriminate].
  destruct (interpreter_line depth (readlines content) (note_open f st))
    as [aborted|[[fd n] st1]] eqn:Hi.
  { subst aborted. unfold interpreter_line in Hi. destruct depth; [|discriminate].
    destruct (readline (readlines content)) as [line fd].
    destruct (Re.search_shell line); [|discriminate].
    destruct (negb (supported s)); discriminate. }
  apply interpreter_line_cwd in Hi. simpl in Hi.
  destruct (pushd f st1) as [saved st2] eqn:Hp.
  destruct (scan _ f fd n st2) as [[| | |] st3] eqn:Hs; try discriminate.
  injection H as <-.
  assert (Hwf1 : Path.wf_dir (cwd st1) = true) by (rewrite Hi; exact Hwf).
  pose proof (popd_pushd f st1 st3 Hwf1) as Hpop. rewrite Hp in Hpop. simpl in Hpop.
  rewrite Hpop; [exact Hi|].
  eapply scan_cwd; [| |exact Hs]; [|reflexivity].
  intros target s s' Hs0 Hr. rewrite <- Hs0. apply (IH _ _ _ _) in Hr; [exact Hr|].
  rewrite Hs0. pose proof (pushd_cwd f st1) as Hc. rewrite Hp in Hc. simpl in Hc.
  rewrite Hc. apply wf_dir_resolve, Hwf1.
Qed.

Lemma process_file_restores_cwd_witness :
  cwd (snd (process_file Sample.nested 2 "include_level_1/include1.sh" 1
              (State ["t"; "resources"] EmptyString []))) =
  ["t"; "resources"].
Proof.
  apply (process_file_restores_cwd Sample.nested 2 "include_level_1/include1.sh" 1
           (State ["t"; "resources"] EmptyString [])).
  - reflexivity.
  - vm_compute. reflexivity.
Defined.

(** C3.  [process_file] looks up the file named by an inclusion statement
    from the directory in which the file containing the statement lies,
    not from the directory of the top-level script and not from the
    directory the process started in: at every depth, the run ends the
    same way, writes the same output and opens the same files as the
    expansion that is handed the directory of each file explicitly and
    never consults the working directory of the process. *)
Theorem inclusions_resolved_from_containing_directory
    (fs : filesystem) (fuel : nat) (input_filename : string) (depth : nat)
    (st : state) :
  Path.wf_dir (cwd st) = true ->
  fst (process_file fs fuel input_filename depth st) =
  fst (expand_at fs fuel (cwd st) input_filename depth st) /\
  output (snd (process_file fs fuel input_filename depth st)) =
  output (snd (expand_at fs fuel (cwd st) input_filename depth st)) /\
  opened (snd (process_file fs fuel input_filename depth st)) =
  opened (snd (expand_at fs fuel (cwd st) input_filename depth st)).
Proof.
  intros Hwf.
  destruct (process_file_simulates fs fuel input_filename depth st st Hwf)
    as (Ho & [Hout Hlog] & _); [split; reflexivity|].
  auto.
Qed.

Lemma inclusions_resolved_from_containing_directory_witness :
  opened (snd (shld Sample.nested 3 ["t"] "resources/relpath-and-recursion.sh")) =
  [ ["t"; "resources"; "relpath-and-recursion.sh"];
    ["t"; "resources"; "include_level_1"; "include1.sh"];
    ["t"; "resources"; "include_level_1"; "include_level_2"; "include2.sh"] ].
Proof.
  unfold shld.
  rewrite (proj2 (proj2 (inclusions_resolved_from_containing_directory
             Sample.nested 3 "resources/relpath-and-recursion.sh" 0
             (initial ["t"]) eq_refl))).
  vm_compute. reflexivity.
Defined.

(** C2, as stated, fails: the directive line is read and dropped; only
    the inclusion line that follows it reaches the output. *)
Lemma directive_line_is_not_copied : ~ directive_and_inclusion_copied.
Proof.
  intros H.
  specialize (H (fun _ st => (Returned, st)) EmptyString
                (Sample.ln "#shldignore") (Sample.ln ". lib.sh") [] 0
                (initial []) eq_refl eq_refl).
  vm_compute in H. discriminate H.
Qed.

(** C2, amended.  When an ignore directive is followed by an inclusion
    statement, the loop does not write the directive line; it writes the
    inclusion line unchanged, makes no recursive call for it and opens no
    file, counts two lines, and goes on with the line after. *)
Theorem ignored_inclusion_copied_alone
    (recurse : string -> state -> outcome * state)
    (input_filename directive inclusion : string) (rest : list string)
    (line_number : nat) (st : state) :
  Re.SHLDIGNORE_COMMENT_PATTERN directive = true ->
  Re.SOURCE_CMD_PATTERN inclusion = true ->
  scan recurse input_filename (directive :: inclusion :: rest) line_number st =
  scan recurse input_filename rest (line_number + 1 + 1)
       (State (cwd st) (output st +:+ inclusion) (opened st)).
Proof.
  intros Hd Hi. rewrite scan_cons, Hd, Hi. reflexivity.
Qed.

Lemma ignored_inclusion_copied_alone_witness :
  scan (fun target => process_file Sample.scripts 1 target 1) "shldignore.sh"
       [Sample.ln "#shldignore"; Sample.ln ". file/to/source/at/runtime";
        Sample.ln "echo done"] 1 (initial []) =
  scan (fun target => process_file Sample.scripts 1 target 1) "shldignore.sh"
       [Sample.ln "echo done"] (1 + 1 + 1)
       (State [] (EmptyString +:+ Sample.ln ". file/to/source/at/runtime") []).
Proof.
  apply (ignored_inclusion_copied_alone (fun target => process_file Sample.scripts 1 target 1)
           "shldignore.sh" (Sample.ln "#shldignore")
           (Sample.ln ". file/to/source/at/runtime") [Sample.ln "echo done"] 1
           (initial [])); reflexivity.
Defined.

(** The whole run on the script of the ignore-directive test. *)
Example shldignore_run :
  shld Sample.scripts 1 [] "shldignore.sh" =
  (Returned,
   State [] (Sample.ln "#!/bin/bash" +:+ Sample.ln ". file/to/source/at/runtime"
             +:+ Sample.ln "echo done")
         [["shldignore.sh"]]).
Proof. vm_compute. reflexivity. Qed.

Lemma interpreter_line_skips depth lines st input_fd n st1 :
  interpreter_line depth lines st = inr (input_fd, n, st1) ->
  forall k, nth_error lines (n + k) = nth_error input_fd k.
Proof.
  unfold interpreter_line. destruct depth.
  - destruct lines as [|first body]; simpl.
    + discriminate.
    + destruct (Re.search_shell first); [|discriminate].
      destruct (negb (supported s)); [discriminate|].
      intros [= <- <- _] k. reflexivity.
  - intros [= <- <- _] k. reflexivity.
Qed.

(** What the loop reports when it reaches a directive that no inclusion
    statement follows: the file name it was given and the number of lines
    of the file read before the directive, which is the index of the
    directive line counted from zero. *)
Lemma shldignore_misuse_report
    (fs : filesystem) (fuel : nat) (filename : string) (depth : nat)
    (st : state) (content : string) (before : list string) (directive : string)
    (after : list string) (n : nat) (st1 st2 : state) :
  fs_open fs (cwd st) filename = Some content ->
  interpreter_line depth (readlines content) (note_open filename st) =
    inr ((before ++ directive :: after)%list, n, st1) ->
  scan (fun target => process_file fs fuel target (depth + 1))
       filename before n (snd (pushd filename st1)) = (Returned, st2) ->
  Re.SHLDIGNORE_COMMENT_PATTERN directive = true ->
  Re.SOURCE_CMD_PATTERN (fst (readline after)) = false ->
  process_file fs (S fuel) filename depth st =
    (Exited IMPROPER_USE_OF_SHLDIGNORE
       (ShldignoreWithoutSource filename (n + length before)), st2) /\
  nth_error (readlines content) (n + length before) = Some directive.
Proof.
  intros Hopen Hi Hscan Hd Hnext. split.
  - rewrite process_file_S. change (cwd (note_open filename st)) with (cwd st).
    rewrite Hopen, Hi. destruct (pushd filename st1) as [saved st1'].
    simpl in Hscan. rewrite (scan_app _ _ _ _ _ _ _ Hscan), scan_cons, Hd.
    destruct after as [|next after']; simpl in Hnext.
    + reflexivity.
    + rewrite Hnext. reflexivity.
  - rewrite (interpreter_line_skips _ _ _ _ _ _ Hi).
    rewrite nth_error_app2 by lia. rewrite Nat.sub_diag. reflexivity.
Qed.

(** The run on the script of the misuse test: the directive is on the
    second line and the report says line 1. *)
Example improper_use_run :
  shld Sample.scripts 1 [] "improper.sh" =
  (Exited IMPROPER_USE_OF_SHLDIGNORE (ShldignoreWithoutSource "improper.sh" 1),
   State [] (Sample.ln "#!/bin/bash") [["improper.sh"]]).
Proof. vm_compute. reflexivity. Qed.

(** C4, as stated, fails.  A script that declares an unsupported
    interpreter and misuses the directive ends with the exit for the
    unsupported shell, because the interpreter line is checked before any
    line is scanned; and where the misuse is reported, for a directive on
    the second line of the script, the report says line 1. *)
Lemma misuse_is_not_always_reported_with_its_line :
  ~ misuse_reported_at_directive_line /\
  fst (shld Sample.scripts 1 [] "zsh-improper.sh") =
    Exited UNSUPPORTED_SHELL (NotSupportedShell "zsh") /\
  nth_error (readlines (Sample.ln "#!/bin/bash" +:+ Sample.ln "#shldignore" +:+
                        Sample.ln "echo not-an-include")) 1 =
    Some (Sample.ln "#shldignore") /\
  fst (shld Sample.scripts 1 [] "improper.sh") =
    Exited IMPROPER_USE_OF_SHLDIGNORE (ShldignoreWithoutSource "improper.sh" 1).
Proof.
  split; [|repeat split; vm_compute; reflexivity].
  intros H.
  destruct (H Sample.scripts 0 [] "zsh-improper.sh"
              (Sample.ln "#!/bin/zsh" +:+ Sample.ln "#shldignore" +:+
               Sample.ln "echo not-an-include")
              1 (Sample.ln "#shldignore")) as [st' E];
    try (vm_compute; reflexivity).
  vm_compute in E. discriminate E.
Qed.

(** C4, amended.  When the scan of a file reaches an ignore directive (the
    interpreter line, at depth 0, was accepted and the lines before the
    directive were scanned to the end) and the next line is not an
    inclusion statement, or there is no next line, the run ends with exit
    code 3 and a report that names the file as it was passed to
    [process_file]; nothing is written for the directive. *)
Theorem shldignore_misuse_exits
    (fs : filesystem) (fuel : nat) (filename : string) (depth : nat)
    (st : state) (content : string) (before : list string) (directive : string)
    (after : list string) (n : nat) (st1 st2 : state) :
  fs_open fs (cwd st) filename = Some content ->
  interpreter_line depth (readlines content) (note_open filename st) =
    inr ((before ++ directive :: after)%list, n, st1) ->
  scan (fun target => process_file fs fuel target (depth + 1))
       filename before n (snd (pushd filename st1)) = (Returned, st2) ->
  Re.SHLDIGNORE_COMMENT_PATTERN directive = true ->
  Re.SOURCE_CMD_PATTERN (fst (readline after)) = false ->
  exists line_number,
    process_file fs (S fuel) filename depth st =
    (Exited IMPROPER_USE_OF_SHLDIGNORE
       (ShldignoreWithoutSource filename line_number), st2).
Proof.
  intros Hopen Hi Hscan Hd Hnext. exists (n + length before).
  exact (proj1 (shldignore_misuse_report _ _ _ _ _ _ _ _ _ _ _ _
                  Hopen Hi Hscan Hd Hnext)).
Qed.

Lemma shldignore_misuse_exits_witness :
  exists line_number,
    process_file Sample.scripts 1 "improper.sh" 0 (initial []) =
    (Exited IMPROPER_USE_OF_SHLDIGNORE
       (ShldignoreWithoutSource "improper.sh" line_number),
     State [] (Sample.ln "#!/bin/bash") [["improper.sh"]]).
Proof.
  apply (shldignore_misuse_exits Sample.scripts 0 "improper.sh" 0 (initial [])
           (Sample.ln "#!/bin/bash" +:+ Sample.ln "#shldignore" +:+
            Sample.ln "echo not-an-include")
           [] (Sample.ln "#shldignore") [Sample.ln "echo not-an-include"] 1
           (State [] (Sample.ln "#!/bin/bash") [["improper.sh"]])
           (State [] (Sample.ln "#!/bin/bash") [["improper.sh"]]));
    vm_compute; reflexivity.
Defined.

(** C5, as stated, fails: for [#!/usr/bin/env bash] the token after the
    last path separator is [env bash], which is not a supported shell, and
    yet the line is accepted and copied. *)
Lemma validator_reads_last_word_only : ~ validator_by_trailing_component.
Proof.
  intros H.
  specialize (H [Sample.ln "#!/usr/bin/env bash"] (initial [])).
  vm_compute in H. discriminate H.
Qed.

(** C5, amended.  When the first line of the top-level script ends, apart
    from trailing white space, with a word (a longest run of characters
    that are neither slashes nor white space), the validator extracts that
    word.  If it is one of sh, bash, dash and ksh, the first line is
    written unchanged to the output before anything else; otherwise the
    run ends with exit code 2, names the word, and has written nothing. *)
Theorem validator_checks_last_word
    (fs : filesystem) (fuel : nat) (filename : string) (st : state)
    (content shell : string) :
  fs_open fs (cwd st) filename = Some content ->
  ends_with_word (fst (readline (readlines content))) shell ->
  (supported shell = true ->
   exists o st' more,
     process_file fs (S fuel) filename 0 st = (o, st') /\
     output st' = output st +:+ fst (readline (readlines content)) +:+ more) /\
  (supported shell = false ->
   exists st',
     process_file fs (S fuel) filename 0 st =
     (Exited UNSUPPORTED_SHELL (NotSupportedShell shell), st') /\
     output st' = output st).
Proof.
  intros Hopen Hword. apply search_shell_word in Hword.
  rewrite process_file_S. change (cwd (note_open filename st)) with (cwd st).
  rewrite Hopen. unfold interpreter_line.
  destruct (readline (readlines content)) as [line fd]. simpl fst in *.
  rewrite Hword. split; intros Hsup; rewrite Hsup; simpl negb; cbv iota.
  - pose proof (pushd_streams filename (write line (note_open filename st))) as [Hp _].
    destruct (pushd filename (write line (note_open filename st))) as [saved st2].
    destruct (scan_output_grows
                (fun target => process_file fs fuel target (0 + 1)) filename
                (fun target s => process_file_output_grows fs fuel target (0 + 1) s)
                fd 1 st2) as [more E].
    destruct (scan _ filename fd 1 st2) as [o st3]. simpl in E, Hp.
    assert (Hout : output st3 = output st +:+ line +:+ more).
    { rewrite E, Hp. apply app_assoc. }
    destruct o; eexists _, _, more; (split; [reflexivity|]); try exact Hout.
    destruct (popd_streams saved st3) as [-> _]. exact Hout.
  - eexists. split; reflexivity.
Qed.

Lemma validator_checks_last_word_witness :
  (supported "bash" = true ->
   exists o st' more,
     process_file Sample.scripts 1 "env.sh" 0 (initial []) = (o, st') /\
     output st' =
     output (initial []) +:+
     fst (readline (readlines (Sample.ln "#!/usr/bin/env bash" +:+ Sample.ln "echo a")))
     +:+ more) /\
  (supported "bash" = false ->
   exists st',
     process_file Sample.scripts 1 "env.sh" 0 (initial []) =
     (Exited UNSUPPORTED_SHELL (NotSupportedShell "bash"), st') /\
     output st' = output (initial [])).
Proof.
  apply (validator_checks_last_word Sample.scripts 0 "env.sh" (initial [])
           (Sample.ln "#!/usr/bin/env bash" +:+ Sample.ln "echo a") "bash").
  - vm_compute. reflexivity.
  - exists "#!/usr/bin/env ", Sample.nl. vm_compute. auto.
Defined.

(** The run of the relative-path test: each file is found from the
    directory of the file that names it. *)
Example relpath_and_recursion_run :
  shld Sample.nested 3 ["t"] "resources/relpath-and-recursion.sh" =
  (Returned,
   State ["t"]
         (Sample.ln "#!/bin/bash" +:+ Sample.ln "echo top" +:+
          Sample.ln "echo one" +:+ Sample.ln "echo two" +:+ Sample.ln "echo end")
         [ ["t"; "resources"; "relpath-and-recursion.sh"];
           ["t"; "resources"; "include_level_1"; "include1.sh"];
           ["t"; "resources"; "include_level_1"; "include_level_2"; "include2.sh"] ]).
Proof. vm_compute. reflexivity. Qed.

(** The run on a script that declares an interpreter outside the list. *)
Example unsupported_shell_run :
  shld Sample.scripts 1 [] "zsh.sh" =
  (Exited UNSUPPORTED_SHELL (NotSupportedShell "zsh"),
   State [] EmptyString [["zsh.sh"]]).
Proof. vm_compute. reflexivity. Qed.

(** Every line that names a file after the keyword matches the pattern. *)
Lemma names_a_file_matches (line : string) :
  names_a_file line = true -> Re.SOURCE_CMD_PATTERN line = true.
Proof.
  unfold names_a_file, Re.SOURCE_CMD_PATTERN.
  destruct (Re.keyword (Str.dropwhile Chr.re_space line)) as [[|c r]|];
    try discriminate.
  intros H. apply andb_true_iff in H as [H _]. exact H.
Qed.

(** C6.  The pattern asks for white space after the keyword and for
    nothing after that: a line that holds the keyword and white space
    only, such as [source] followed by a blank and the line end, or the
    dot followed by the line end, is classed as an inclusion statement
    though it names no file. *)
Theorem bare_keyword_classed_as_inclusion :
  Re.SOURCE_CMD_PATTERN (Sample.ln "source ") = true /\
  names_a_file (Sample.ln "source ") = false /\
  Re.SOURCE_CMD_PATTERN (Sample.ln ".") = true /\
  names_a_file (Sample.ln ".") = false.
Proof. repeat split; reflexivity. Qed.

(** C9.  There is a line that the pattern accepts as an inclusion
    statement, [source] followed by a blank and the line end, which
    [shlex.split] turns into the single word [source]; taking element 1
    of that list raises [IndexError], wherever the loop meets the line, and
    the run ends with that exception instead of one of the exit codes. *)
Theorem source_without_target_raises_IndexError :
  Re.SOURCE_CMD_PATTERN (Sample.ln "source ") = true /\
  Shlex.split (Sample.ln "source ") = Some ["source"] /\
  (forall recurse input_filename rest line_number st,
      scan recurse input_filename (Sample.ln "source " :: rest) line_number st =
      (Raised IndexError, st)) /\
  fst (shld Sample.scripts 1 [] "bare.sh") = Raised IndexError /\
  (forall code stderr, Raised IndexError <> Exited code stderr).
Proof.
  repeat split; try reflexivity. intros code stderr. discriminate.
Qed.

(** C10.  When the first line of the top-level script holds nothing but
    slashes and white space, an empty file included, the interpreter
    pattern does not match, [match.group(1)] raises [AttributeError], and
    the run ends with that exception, having written nothing, instead of
    the exit for an unsupported shell. *)
Theorem interpreter_line_without_name_raises
    (fs : filesystem) (fuel : nat) (filename : string) (st : state)
    (content : string) :
  fs_open fs (cwd st) filename = Some content ->
  Str.all (fun c => Path.is_slash c || Chr.re_space c)
          (fst (readline (readlines content))) = true ->
  process_file fs (S fuel) filename 0 st =
  (Raised AttributeError, note_open filename st).
Proof.
  intros Hopen Hline. apply search_shell_none in Hline.
  rewrite process_file_S. change (cwd (note_open filename st)) with (cwd st).
  rewrite Hopen. unfold interpreter_line.
  destruct (readline (readlines content)) as [line fd]. simpl fst in Hline.
  rewrite Hline. reflexivity.
Qed.

Lemma interpreter_line_without_name_raises_witness :
  process_file Sample.scripts 1 "empty.sh" 0 (initial []) =
  (Raised AttributeError, note_open "empty.sh" (initial [])).
Proof.
  apply (interpreter_line_without_name_raises Sample.scripts 0 "empty.sh"
           (initial []) EmptyString).
  - vm_compute. reflexivity.
  - reflexivity.
Defined.

(** * Further properties of the code *)

(** ** How the loop can end *)

Lemma source_target_exn (line : string) (e : exn) :
  source_target line = inl e -> e = IndexError \/ e = ValueError.
Proof.
  unfold source_target.
  destruct (Shlex.split line) as [[|a [|b l]]|]; intros [= <-]; auto.
Qed.

(** The loop ends by returning, with the misuse exit, with an exception
    of [shlex.split(line)[1]], or the way a call it made ended. *)
Lemma scan_outcome rec (input_filename : string) (P : outcome -> Prop) :
  P Returned ->
  (forall k, P (Exited IMPROPER_USE_OF_SHLDIGNORE
                  (ShldignoreWithoutSource input_filename k))) ->
  P (Raised IndexError) -> P (Raised ValueError) ->
  (forall target st, P (fst (rec target st))) ->
  forall input_fd line_number st,
    P (fst (scan rec input_filename input_fd line_number st)).
Proof.
  intros HR HX HI HV Hrec input_fd.
  induction input_fd as [|line rest IH1 IH2] using lines_ind; intros n st.
  - exact HR.
  - rewrite scan_cons. destruct (Re.SHLDIGNORE_COMMENT_PATTERN line).
    + destruct rest as [|line2 rest2]; [apply HX|].
      destruct (Re.SOURCE_CMD_PATTERN line2); simpl negb; cbv iota;
        [apply IH2 | apply HX].
    + destruct (Re.SOURCE_CMD_PATTERN line); [|apply IH1].
      destruct (source_target line) as [e|target] eqn:Ht.
      * destruct (source_target_exn _ _ Ht) as [-> | ->]; assumption.
      * specialize (Hrec target st).
        destruct (rec target st) as [[| | |] st1]; simpl in Hrec;
          try exact Hrec. apply IH1.
Qed.


(** X1.  Only the top-level script has its interpreter line checked: a
    call at depth 1 or more, and every call nested in it, never ends with
    the exit for an unsupported shell nor with the [AttributeError] of a
    failed interpreter match, whatever the first lines of the files say. *)
Theorem nested_files_are_not_validated
    (fs : filesystem) (fuel : nat) (input_filename : string) (depth : nat)
    (st : state) :
  match fst (process_file fs fuel input_filename (S depth) st) with
  | Exited _ (NotSupportedShell _) => False
  | Raised AttributeError => False
  | _ => True
  end.
Proof.
  revert input_filename depth st.
  induction fuel as [|fuel IH]; intros f depth st; [exact I|].
  rewrite process_file_S.
  destruct (fs_open fs (cwd (note_open f st)) f) as [content|]; [|exact I].
  change (interpreter_line (S depth) (readlines content) (note_open f st))
    with (@inr (outcome * state) _ (readlines content, 0, note_open f st)).
  cbv iota beta.
  destruct (pushd f (note_open f st)) as [saved st2].
  pose proof (scan_outcome (fun target => process_file fs fuel target (S depth + 1)) f
                (fun o => match o with
                          | Exited _ (NotSupportedShell _) => False
                          | Raised AttributeError => False
                          | _ => True
                          end) I (fun _ => I) I I
                (fun target s => IH target (depth + 1) s)
                (readlines content) 0 st2) as Hs.
  destruct (scan _ f (readlines content) 0 st2) as [[| | |] st3]; simpl in Hs |- *;
    exact Hs || exact I.
Qed.

(** ** The log of opened files only grows *)

Lemma scan_opened_grows rec (input_filename : string) :
  (forall target st, exists more, opened (snd (rec target st)) = (opened st ++ more)%list) ->
  forall input_fd line_number st,
    exists more,
      opened (snd (scan rec input_filename input_fd line_number st)) =
      (opened st ++ more)%list.
Proof.
  intros Hrec input_fd.
  induction input_fd as [|line rest IH1 IH2] using lines_ind; intros n st.
  - exists []. simpl. rewrite List.app_nil_r. reflexivity.
  - rewrite scan_cons. destruct (Re.SHLDIGNORE_COMMENT_PATTERN line).
    + destruct rest as [|line2 rest2].
      * exists []. simpl. rewrite List.app_nil_r. reflexivity.
      * destruct (Re.SOURCE_CMD_PATTERN line2); simpl negb; cbv iota.
        -- apply (IH2 (n + 1 + 1) (write line2 st)).
        -- exists []. simpl. rewrite List.app_nil_r. reflexivity.
    + destruct (Re.SOURCE_CMD_PATTERN line).
      * destruct (source_target line) as [e|target].
        { exists []. simpl. rewrite List.app_nil_r. reflexivity. }
        destruct (Hrec target st) as [more1 E1].
        destruct (rec target st) as [o st1]. simpl in E1.
        destruct o; try (exists more1; exact E1).
        destruct (IH1 (n + 1) st1) as [more E]. exists (more1 ++ more)%list.
        rewrite E, E1. symmetry. apply List.app_assoc.
      * apply (IH1 (n + 1) (write line st)).
Qed.

Lemma process_file_opened_grows (fs : filesystem) (fuel : nat) :
  forall input_filename depth st,
    exists more,
      opened (snd (process_file fs fuel input_filename depth st)) =
      (opened st ++ more)%list.
Proof.
  induction fuel as [|fuel IH]; intros f depth st.
  - exists []. simpl. rewrite List.app_nil_r. reflexivity.
  - rewrite process_file_S.
    destruct (fs_open fs (cwd (note_open f st)) f) as [content|].
    2:{ eexists. reflexivity. }
    assert (Hi : match interpreter_line depth (readlines content) (note_open f st) with
                 | inl (_, st') => opened st' = opened (note_open f st)
                 | inr (_, _, st') => opened st' = opened (note_open f st)
                 end).
    { unfold interpreter_line. destruct depth; [|reflexivity].
      destruct (readline (readlines content)) as [line fd].
      destruct (Re.search_shell line) as [shell|]; [|reflexivity].
      destruct (negb (supported shell)); reflexivity. }
    destruct (interpreter_line depth (readlines content) (note_open f st))
      as [[o st1]|[[fd n] st1]].
    { eexists. simpl. rewrite Hi. reflexivity. }
    pose proof (pushd_streams f st1) as [_ Hp].
    destruct (pushd f st1) as [saved st2]. simpl in Hp.
    destruct (scan_opened_grows
                (fun target => process_file fs fuel target (depth + 1)) f
                (fun target s => IH target (depth + 1) s) fd n st2) as [more E].
    destruct (scan _ f fd n st2) as [o st3]. simpl in E.
    exists ([Path.resolve (cwd st) f] ++ more)%list.
    assert (Hlog : opened st3 = (opened st ++ [Path.resolve (cwd st) f] ++ more)%list).
    { rewrite E, Hp, Hi. simpl. rewrite <- List.app_assoc. reflexivity. }
    destruct o; simpl; try exact Hlog.
    destruct (popd_streams saved st3) as [_ ->]. exact Hlog.
Qed.

(** X2.  [process_file] only appends: however the call ends, what had been
    written to the output before the call is still there, at the front of
    the output, and so is the record of the files opened before it. *)
Theorem process_file_only_appends
    (fs : filesystem) (fuel : nat) (input_filename : string) (depth : nat)
    (st : state) :
  exists written opens,
    output (snd (process_file fs fuel input_filename depth st)) =
      output st +:+ written /\
    opened (snd (process_file fs fuel input_filename depth st)) =
      (opened st ++ opens)%list.
Proof.
  destruct (process_file_output_grows fs fuel input_filename depth st) as [w Hw].
  destruct (process_file_opened_grows fs fuel input_filename depth st) as [l Hl].
  exists w, l. split; assumption.
Qed.

(** ** An inclusion that cannot be opened *)



(** ** Files that include themselves *)

(** X4.  There is no guard against cycles: a file whose scan reaches, after
    lines that are copied, an inclusion statement naming the file itself
    never returns; whatever the recursion budget, the call runs out of it
    (and has opened the file once for each level). *)
Theorem self_inclusion_never_returns
    (fs : filesystem) (here : Path.dir) (name content : string)
    (before : list string) (line : string) (after : list string) :
  fs_open fs here name = Some content ->
  Path.dirname name = EmptyString ->
  readlines content = (before ++ line :: after)%list ->
  Forall (fun l => Re.SHLDIGNORE_COMMENT_PATTERN l = false /\
                   Re.SOURCE_CMD_PATTERN l = false) before ->
  Re.SOURCE_CMD_PATTERN line = true ->
  source_target line = inr name ->
  forall fuel depth st,
    cwd st = here ->
    fst (process_file fs fuel name (S depth) st) = TooDeep /\
    length (opened (snd (process_file fs fuel name (S depth) st))) =
    length (opened st) + fuel.
Proof.
  intros Hopen Hdir Hlines Hbefore Hs Ht fuel.
  induction fuel as [|fuel IH]; intros depth st Hc.
  - split; [reflexivity | simpl; lia].
  - rewrite process_file_S. change (cwd (note_open name st)) with (cwd st).
    rewrite Hc, Hopen, Hlines.
    change (interpreter_line (S depth) (before ++ line :: after)%list (note_open name st))
      with (@inr (outcome * state) _ ((before ++ line :: after)%list, 0, note_open name st)).
    cbv iota beta. unfold pushd. rewrite Hdir. simpl Str.nonempty. cbv iota.
    rewrite (scan_app _ _ _ _ _ _ _ (scan_ordinary _ _ _ Hbefore 0 (note_open name st))).
    rewrite scan_cons, (source_not_directive _ Hs), Hs, Ht.
    destruct (IH (depth + 1) (write (Str.concat before) (note_open name st)) Hc)
      as [Ho Hl].
    change (S depth + 1) with (S (depth + 1)).
    destruct (process_file fs fuel name (S (depth + 1))
                (write (Str.concat before) (note_open name st))) as [o s].
    simpl in Ho, Hl. subst o. simpl. rewrite Hl. simpl.
    rewrite length_app. simpl. split; [reflexivity | lia].
Qed.

Lemma self_inclusion_never_returns_witness :
  fst (process_file More.scripts 40 "loop.sh" 1 (initial [])) = TooDeep /\
  length (opened (snd (process_file More.scripts 40 "loop.sh" 1 (initial [])))) =
  length (opened (initial [])) + 40.
Proof.
  apply (self_inclusion_never_returns More.scripts [] "loop.sh"
           (Sample.ln "echo again" +:+ Sample.ln ". loop.sh")
           [Sample.ln "echo again"] (Sample.ln ". loop.sh") []);
    try (vm_compute; reflexivity).
  repeat constructor.
Defined.

(** ** Absolute path names *)

Lemma resolve_absolute (c1 c2 : Path.dir) (p : string) :
  Path.is_absolute p = true -> Path.resolve c1 p = Path.resolve c2 p.
Proof. unfold Path.resolve. intros ->. reflexivity. Qed.

Lemma dirname_absolute (p : string) :
  Path.is_absolute p = true -> Path.is_absolute (Path.dirname p) = true.
Proof.
  destruct p as [|c r]; [discriminate|]. simpl Path.is_absolute. intros Hc.
  unfold Path.dirname. rewrite head_cons. simpl Path.has_slash. rewrite Hc. simpl orb.
  cbv iota.
  destruct (Str.nonempty (String c (Path.head r)) &&
            negb (Str.all Path.is_slash (String c (Path.head r)))) eqn:E.
  - apply andb_true_iff in E as [_ E]. apply negb_true_iff in E.
    rewrite (rstrip_slash_absolute _ E). exact Hc.
  - exact Hc.
Qed.

Lemma absolute_nonempty (p : string) :
  Path.is_absolute p = true -> Str.nonempty p = true.
Proof. destruct p; [discriminate | reflexivity]. Qed.

(** X5.  A file given by an absolute path name is processed the same way
    from every working directory: the run ends the same way, writes the
    same output and opens the same files, the files it includes by
    relative names being looked up from its own directory. *)
Theorem absolute_path_independent_of_cwd
    (fs : filesystem) (fuel : nat) (input_filename : string) (depth : nat)
    (c1 c2 : Path.dir) (out : string) (log : list Path.dir) :
  Path.is_absolute input_filename = true ->
  fst (process_file fs fuel input_filename depth (State c1 out log)) =
  fst (process_file fs fuel input_filename depth (State c2 out log)) /\
  output (snd (process_file fs fuel input_filename depth (State c1 out log))) =
  output (snd (process_file fs fuel input_filename depth (State c2 out log))) /\
  opened (snd (process_file fs fuel input_filename depth (State c1 out log))) =
  opened (snd (process_file fs fuel input_filename depth (State c2 out log))).
Proof.
  intros Habs. destruct fuel as [|fuel]; [repeat split|].
  rewrite !process_file_S. unfold note_open, fs_open. simpl cwd. simpl output.
  simpl opened. rewrite (resolve_absolute c1 c2 _ Habs).
  destruct (Path.names_file input_filename); [|repeat split].
  destruct (fs !! Path.resolve c2 input_filename) as [content|]; [|repeat split].
  set (L := (log ++ [Path.resolve c2 input_filename])%list).
  assert (Hi : forall c,
             interpreter_line depth (readlines content) (State c out L) =
             match interpreter_line depth (readlines content) (State c2 out L) with
             | inl (o, s) => inl (o, State c (output s) (opened s))
             | inr (fd, n, s) => inr (fd, n, State c (output s) (opened s))
             end).
  { intros c. unfold interpreter_line. destruct depth; [|reflexivity].
    destruct (readline (readlines content)) as [line fd].
    destruct (Re.search_shell line) as [shell|]; [|reflexivity].
    destruct (negb (supported shell)); reflexivity. }
  rewrite (Hi c1).
  destruct (interpreter_line depth (readlines content) (State c2 out L))
    as [[o s]|[[fd n] s]] eqn:E; [repeat split|].
  apply interpreter_line_cwd in E. destruct s as [cs os ls]. simpl in E. subst cs.
  unfold pushd.
  rewrite (absolute_nonempty _ (dirname_absolute _ Habs)). unfold chdir. simpl cwd.
  simpl output. simpl opened.
  rewrite (resolve_absolute c1 c2 _ (dirname_absolute _ Habs)).
  destruct (scan _ input_filename fd n _) as [[| | |] s3]; repeat split;
    rewrite !getcwd_nonempty; reflexivity.
Qed.

Lemma absolute_path_independent_of_cwd_witness :
  fst (process_file More.scripts 3 "/opt/abs.sh" 1 (State ["x"; "y"] EmptyString [])) =
  fst (process_file More.scripts 3 "/opt/abs.sh" 1 (State [] EmptyString [])) /\
  output (snd (process_file More.scripts 3 "/opt/abs.sh" 1 (State ["x"; "y"] EmptyString []))) =
  output (snd (process_file More.scripts 3 "/opt/abs.sh" 1 (State [] EmptyString []))) /\
  opened (snd (process_file More.scripts 3 "/opt/abs.sh" 1 (State ["x"; "y"] EmptyString []))) =
  opened (snd (process_file More.scripts 3 "/opt/abs.sh" 1 (State [] EmptyString []))).
Proof.
  apply (absolute_path_independent_of_cwd More.scripts 3 "/opt/abs.sh" 1
           ["x"; "y"] [] EmptyString []).
  reflexivity.
Defined.

(** The run of a file given by an absolute name from an unrelated
    directory. *)
Example absolute_path_run :
  process_file More.scripts 3 "/opt/abs.sh" 1 (State ["x"; "y"] EmptyString []) =
  (Returned,
   State ["x"; "y"] (Sample.ln "echo abs" +:+ Sample.ln "echo rel")
         [["opt"; "abs.sh"]; ["opt"; "sub"; "rel.sh"]]).
Proof. vm_compute. reflexivity. Qed.

(** ** Files included more than once *)

Lemma state_eq (a b : state) :
  cwd a = cwd b -> output a = output b -> opened a = opened b -> a = b.
Proof. destruct a, b. simpl. intros -> -> ->. reflexivity. Qed.

(** What a call on an included file of copied lines does to the state. *)
Lemma nested_ordinary_file fs fuel target depth st content :
  Path.wf_dir (cwd st) = true ->
  fs_open fs (cwd st) target = Some content ->
  Forall (fun l => Re.SHLDIGNORE_COMMENT_PATTERN l = false /\
                   Re.SOURCE_CMD_PATTERN l = false) (readlines content) ->
  process_file fs (S fuel) target (depth + 1) st =
  (Returned,
   State (cwd st) (output st +:+ content)
         (opened st ++ [Path.resolve (cwd st) target])%list).
Proof.
  intros Hwf Hopen Hall. rewrite add_1_S, process_file_S.
  change (cwd (note_open target st)) with (cwd st). rewrite Hopen.
  change (interpreter_line (S depth) (readlines content) (note_open target st))
    with (@inr (outcome * state) _ (readlines content, 0, note_open target st)).
  cbv iota beta.
  pose proof (pushd_streams target (note_open target st)) as [Hpo Hpl].
  pose proof (popd_pushd target (note_open target st)) as Hpop.
  destruct (pushd target (note_open target st)) as [saved st2].
  simpl in Hpo, Hpl, Hpop. rewrite (scan_ordinary _ _ _ Hall). f_equal.
  destruct (popd_streams saved (write (Str.concat (readlines content)) st2)) as [Ho Hl].
  apply state_eq; simpl.
  - apply Hpop; [exact Hwf | reflexivity].
  - rewrite Ho. simpl. rewrite Hpo, concat_readlines. reflexivity.
  - rewrite Hl. simpl. exact Hpl.
Qed.

(** X6.  Nothing is cached: [k] inclusion statements for the same file
    open it [k] times and put [k] copies of its content into the output
    (here for a file of lines that are copied as they are). *)
Theorem repeated_inclusions_expand_each_time
    (fs : filesystem) (fuel depth : nat) (input_filename line target content : string)
    (k : nat) (line_number : nat) (st : state) :
  Path.wf_dir (cwd st) = true ->
  Re.SOURCE_CMD_PATTERN line = true ->
  source_target line = inr target ->
  fs_open fs (cwd st) target = Some content ->
  Forall (fun l => Re.SHLDIGNORE_COMMENT_PATTERN l = false /\
                   Re.SOURCE_CMD_PATTERN l = false) (readlines content) ->
  scan (fun target => process_file fs (S fuel) target (depth + 1))
       input_filename (repeat line k) line_number st =
  (Returned,
   State (cwd st) (output st +:+ copies k content)
         (opened st ++ repeat (Path.resolve (cwd st) target) k)%list).
Proof.
  intros Hwf Hs Ht Hopen Hall. revert line_number st Hwf Hopen.
  induction k as [|k IH]; intros n st Hwf Hopen.
  - simpl. rewrite app_nil_r, List.app_nil_r. destruct st; reflexivity.
  - change (repeat line (S k)) with (line :: repeat line k).
    rewrite scan_cons, (source_not_directive _ Hs), Hs, Ht. cbv beta.
    rewrite (nested_ordinary_file _ _ _ _ _ _ Hwf Hopen Hall).
    rewrite IH by assumption. simpl.
    rewrite app_assoc, <- List.app_assoc. reflexivity.
Qed.

Lemma repeated_inclusions_expand_each_time_witness :
  scan (fun target => process_file More.scripts 1 target (0 + 1))
       "twice.sh" (repeat (Sample.ln ". lib.sh") 2) 1
       (State [] (Sample.ln "#!/bin/sh") [["twice.sh"]]) =
  (Returned,
   State [] (Sample.ln "#!/bin/sh" +:+ copies 2 (Sample.ln "echo lib"))
         ([["twice.sh"]] ++ repeat (Path.resolve [] "lib.sh") 2)%list).
Proof.
  apply (repeated_inclusions_expand_each_time More.scripts 0 0 "twice.sh"
           (Sample.ln ". lib.sh") "lib.sh" (Sample.ln "echo lib") 2 1
           (State [] (Sample.ln "#!/bin/sh") [["twice.sh"]]));
    try (vm_compute; reflexivity).
  repeat constructor.
Defined.

(** ** The file name of an inclusion statement *)

Lemma plain_char_inv (c : ascii) :
  plain_char c = true ->
  Chr.shlex_space c = false /\ Shlex.is_quote c = false /\ Shlex.is_escape c = false.
Proof.
  unfold plain_char. intros H.
  apply andb_true_iff in H as [H H3]. apply andb_true_iff in H as [H1 H2].
  apply negb_true_iff in H1, H2, H3. auto.
Qed.

(** Inside a word, plain characters are added to the word. *)
Lemma tokens_plain (w : string) :
  Str.all plain_char w = true ->
  forall r esc token quoted,
    Shlex.tokens (w +:+ r) Shlex.LWord esc token quoted =
    Shlex.tokens r Shlex.LWord esc (token +:+ w) quoted.
Proof.
  induction w as [|c w IH]; intros Hw r esc token quoted.
  - rewrite app_nil_l, app_nil_r. reflexivity.
  - simpl in Hw. apply andb_true_iff in Hw as [Hc Hw].
    destruct (plain_char_inv c Hc) as (H1 & H2 & H3).
    rewrite app_cons. simpl Shlex.tokens. rewrite H1, H2, H3.
    rewrite (IH Hw). unfold Shlex.snoc. rewrite app_assoc. reflexivity.
Qed.

(** A plain word between tokens, followed by white space, is the next
    token. *)
Lemma tokens_word (w : string) (sp : ascii) (rest : string) :
  Str.nonempty w = true -> Str.all plain_char w = true ->
  Chr.shlex_space sp = true ->
  Shlex.tokens (w +:+ String sp rest) Shlex.LSpace Shlex.LSpace EmptyString false =
  option_map (cons w) (Shlex.split rest).
Proof.
  destruct w as [|c w]; [discriminate|]. intros _ Hw Hsp.
  simpl in Hw. apply andb_true_iff in Hw as [Hc Hw].
  destruct (plain_char_inv c Hc) as (H1 & H2 & H3).
  rewrite app_cons. simpl Shlex.tokens at 1. rewrite H1, H2, H3.
  rewrite (tokens_plain w Hw). simpl. rewrite Hsp. reflexivity.
Qed.

(** Between double quotes, every character but the quote and the
    backslash is added to the word, white space included. *)
Lemma tokens_quoted (s : string) :
  Str.all quotable_char s = true ->
  forall r esc token quoted,
    Shlex.tokens (s +:+ String Chr.dquote r) (Shlex.LQuote Chr.dquote) esc token quoted =
    Shlex.tokens r Shlex.LWord esc (token +:+ s) true.
Proof.
  induction s as [|c s IH]; intros Hs r esc token quoted.
  - rewrite app_nil_l, app_nil_r. reflexivity.
  - simpl in Hs. apply andb_true_iff in Hs as [Hc Hs].
    unfold quotable_char in Hc. apply andb_true_iff in Hc as [H1 H2].
    apply negb_true_iff in H1, H2.
    rewrite app_cons. simpl Shlex.tokens. rewrite H1, H2. simpl andb. cbv iota.
    rewrite (IH Hs). unfold Shlex.snoc. rewrite app_assoc. reflexivity.
Qed.

Lemma keyword_plain (kw : string) :
  kw = "source" \/ kw = "." ->
  Str.nonempty kw = true /\ Str.all plain_char kw = true.
Proof. intros [-> | ->]; split; reflexivity. Qed.

(** X7.  In an inclusion statement made of the keyword, a blank and a file
    name written without quotes, backslashes or blanks, the file that
    [process_file] goes on to open is that name as it stands; what follows
    the name on the line is ignored, except that a quotation or a
    backslash left open there raises [ValueError]. *)
Theorem target_is_the_word_after_the_keyword
    (kw name : string) (sp1 sp2 : ascii) (rest : string) :
  kw = "source" \/ kw = "." ->
  Chr.shlex_space sp1 = true -> Chr.shlex_space sp2 = true ->
  Str.nonempty name = true ->
  Str.all plain_char name = true ->
  source_target (kw +:+ String sp1 (name +:+ String sp2 rest)) =
  match Shlex.split rest with
  | Some _ => inr name
  | None => inl ValueError
  end.
Proof.
  intros Hkw H1 H2 Hne Hname. destruct (keyword_plain kw Hkw) as [Hk1 Hk2].
  unfold source_target, Shlex.split at 1.
  rewrite (tokens_word kw sp1 _ Hk1 Hk2 H1). unfold Shlex.split at 1.
  rewrite (tokens_word name sp2 _ Hne Hname H2).
  destruct (Shlex.split rest); reflexivity.
Qed.

Lemma target_is_the_word_after_the_keyword_witness :
  source_target ("source" +:+ String " " ("lib/common.sh" +:+ String Chr.newline EmptyString)) =
  match Shlex.split EmptyString with
  | Some _ => inr "lib/common.sh"
  | None => inl ValueError
  end.
Proof.
  apply (target_is_the_word_after_the_keyword "source" "lib/common.sh" " "
           Chr.newline EmptyString); auto.
Defined.

(** X8.  A file name between double quotes is taken without the quotes
    and with its blanks: the file opened for the statement is the text
    between the quotes, for any text without double quote and backslash. *)
Theorem quoted_target_keeps_its_blanks
    (kw name : string) (sp1 sp2 : ascii) (rest : string) :
  kw = "source" \/ kw = "." ->
  Chr.shlex_space sp1 = true -> Chr.shlex_space sp2 = true ->
  Str.all quotable_char name = true ->
  source_target
    (kw +:+ String sp1 (String Chr.dquote (name +:+ String Chr.dquote (String sp2 rest)))) =
  match Shlex.split rest with
  | Some _ => inr name
  | None => inl ValueError
  end.
Proof.
  intros Hkw H1 H2 Hname. destruct (keyword_plain kw Hkw) as [Hk1 Hk2].
  unfold source_target, Shlex.split at 1.
  rewrite (tokens_word kw sp1 _ Hk1 Hk2 H1). unfold Shlex.split at 1.
  change (Shlex.tokens (String Chr.dquote (name +:+ String Chr.dquote (String sp2 rest)))
            Shlex.LSpace Shlex.LSpace EmptyString false)
    with (Shlex.tokens (name +:+ String Chr.dquote (String sp2 rest))
            (Shlex.LQuote Chr.dquote) Shlex.LSpace EmptyString false).
  rewrite (tokens_quoted name Hname). simpl Shlex.tokens. rewrite H2.
  rewrite orb_true_r. rewrite app_nil_l.
  change (Shlex.tokens rest Shlex.LSpace Shlex.LSpace EmptyString false)
    with (Shlex.split rest).
  destruct (Shlex.split rest); reflexivity.
Qed.

Lemma quoted_target_keeps_its_blanks_witness :
  source_target
    ("." +:+ String " " (String Chr.dquote
       ("my lib.sh" +:+ String Chr.dquote (String Chr.newline EmptyString)))) =
  match Shlex.split EmptyString with
  | Some _ => inr "my lib.sh"
  | None => inl ValueError
  end.
Proof.
  apply (quoted_target_keeps_its_blanks "." "my lib.sh" " " Chr.newline EmptyString);
    auto.
Defined.

(** ** What the patterns accept *)

(** X9.  The interpreter name that the first line yields is exactly the
    last word of the line: [shell] is extracted if and only if the line
    ends, apart from trailing white space, with [shell], a run of
    characters other than slash and white space that cannot be extended to
    the left. *)
Theorem interpreter_name_is_the_last_word (line shell : string) :
  Re.search_shell line = Some shell <-> ends_with_word line shell.
Proof.
  split; [|apply search_shell_word].
  revert shell.
  induction line as [|c r IH]; intros shell; rewrite search_shell_eq.
  - discriminate.
  - destruct (Re.shell_tail (String c r)) as [tok|] eqn:Ht.
    + intros [= ->]. destruct (shell_tail_some _ _ Ht) as (trail & E & H1 & H2 & H3).
      exists EmptyString, trail. rewrite app_nil_l. repeat split; assumption.
    + intros Hs. destruct (IH _ Hs) as (before & trail & E & Hl & H1 & H2 & H3).
      exists (String c before), trail. rewrite app_cons, <- E.
      repeat split; try assumption.
      destruct before as [|y before]; [|exact Hl].
      simpl. destruct (Chr.shell_char c) eqn:Hc; [|reflexivity].
      rewrite app_nil_l in E. subst r.
      assert (Hw : Re.shell_tail ((String c shell) +:+ trail) = Some (String c shell)).
      { apply shell_tail_word; [reflexivity | simpl; rewrite Hc; exact H2 | exact H3]. }
      rewrite app_cons in Hw. congruence.
Qed.

(** X10.  A line is treated as an inclusion statement exactly when it
    consists of optional white space, the keyword [source] or [.], one
    white-space character, and anything at all after that. *)
Theorem inclusion_pattern_accepts (line : string) :
  Re.SOURCE_CMD_PATTERN line = true <->
  exists ws kw c rest,
    line = ws +:+ kw +:+ String c rest /\
    Str.all Chr.re_space ws = true /\
    (kw = "source" \/ kw = ".") /\
    Chr.re_space c = true.
Proof.
  unfold Re.SOURCE_CMD_PATTERN, Re.keyword. split.
  - destruct (dropwhile_split Chr.re_space line) as (ws & E & Hws).
    destruct (Str.strip_prefix "source" (Str.dropwhile Chr.re_space line))
      as [r|] eqn:H1.
    + destruct r as [|c rest]; [discriminate|]. intros Hc.
      apply startswith_via_id in H1. exists ws, "source", c, rest.
      rewrite <- H1. auto.
    + destruct (Str.strip_prefix "." (Str.dropwhile Chr.re_space line))
        as [[|c rest]|] eqn:H2; try discriminate.
      intros Hc. apply startswith_via_id in H2. exists ws, ".", c, rest.
      rewrite <- H2. auto.
  - intros (ws & kw & c & rest & -> & Hws & [-> | ->] & Hc);
      rewrite dropwhile_app by (try exact Hws; reflexivity);
      simpl; exact Hc.
Qed.

(** ** The script as a whole *)

Lemma preflight_sink os force filenames output_fd :
  preflight os force filenames = inr output_fd ->
  match output_fd with
  | ToStdout => length filenames = 1
  | ToTemp output_filename =>
      length filenames = 2 /\ output_filename = nth 1 filenames EmptyString /\
      (F_OK os output_filename = true -> force = true /\ W_OK os output_filename = true)
  end.
Proof.
  unfold preflight.
  destruct ((length filenames <? 1)%nat || (2 <? length filenames)%nat) eqn:E1;
    [discriminate|].
  apply orb_false_iff in E1 as [Ha Hb].
  apply Nat.ltb_ge in Ha, Hb.
  destruct (length filenames =? 2)%nat eqn:E2.
  - apply Nat.eqb_eq in E2.
    destruct (F_OK os (nth 1 filenames EmptyString)) eqn:EF.
    + destruct force; simpl negb; cbv iota; [|discriminate].
      destruct (W_OK os (nth 1 filenames EmptyString)) eqn:EW; simpl negb; cbv iota;
        [|discriminate].
      intros [= <-]. rewrite EF, EW. auto.
    + destruct (negb (F_OK os (Path.dirname (nth 1 filenames EmptyString))));
        [discriminate|].
      destruct (negb (W_OK os (Path.dirname (nth 1 filenames EmptyString))));
        [discriminate|].
      intros [= <-]. rewrite EF. split; [exact E2|]. split; [reflexivity|]. discriminate.
  - apply Nat.eqb_neq in E2. intros [= <-]. lia.
Qed.


(** X11.  The output file appears all at once or not at all: however the
    script ends, no temporary file is left behind; unless it completes,
    the files are as they were; without an output argument they are as
    they were in any case; and with one, nothing goes to the standard
    output. *)
Theorem output_file_is_all_or_nothing
    (os : os_access) (fs : filesystem) (fuel : nat) (start : Path.dir)
    (force : bool) (filenames : list string) (e : ending) (m : machine) :
  main os fs fuel start force filenames = (e, m) ->
  temp m = None /\
  (e <> Completed -> files m = fs) /\
  (length filenames <> 2 -> files m = fs) /\
  (length filenames = 2 -> stdout m = EmptyString).
Proof.
  unfold main. destruct (preflight os force filenames) as [[code c]|output_fd] eqn:Hp.
  - intros [= <- <-]. repeat split.
  - apply preflight_sink in Hp.
    destruct (process_file fs fuel (nth 0 filenames EmptyString) 0 (initial start))
      as [o st].
    destruct output_fd as [|output_filename].
    + destruct o; intros [= <- <-]; repeat split; intros; simpl; lia.
    + destruct Hp as [Hlen _].
      destruct o; intros [= <- <-]; repeat split; intros; simpl;
        congruence || contradiction.
Qed.

Lemma output_file_is_all_or_nothing_witness :
  temp (snd (main More.os More.scripts 2 [] false ["missing.sh"; "out/new.sh"])) = None /\
  (fst (main More.os More.scripts 2 [] false ["missing.sh"; "out/new.sh"]) <> Completed ->
   files (snd (main More.os More.scripts 2 [] false ["missing.sh"; "out/new.sh"])) =
   More.scripts) /\
  (length ["missing.sh"; "out/new.sh"] <> 2 ->
   files (snd (main More.os More.scripts 2 [] false ["missing.sh"; "out/new.sh"])) =
   More.scripts) /\
  (length ["missing.sh"; "out/new.sh"] = 2 ->
   stdout (snd (main More.os More.scripts 2 [] false ["missing.sh"; "out/new.sh"])) =
   EmptyString).
Proof.
  apply (output_file_is_all_or_nothing More.os More.scripts 2 [] false
           ["missing.sh"; "out/new.sh"]).
  apply surjective_pairing.
Defined.

(** X12.  When the script completes with an output argument, the output
    file holds exactly what [process_file] wrote, it lies where the
    argument points from the directory the script was started in, and
    every other file is as it was. *)
Theorem completed_run_installs_the_output
    (os : os_access) (fs : filesystem) (fuel : nat) (start : Path.dir)
    (force : bool) (input output_filename : string) (m : machine) :
  Path.wf_dir start = true ->
  main os fs fuel start force [input; output_filename] = (Completed, m) ->
  exists st,
    shld fs fuel start input = (Returned, st) /\
    m = Machine (<[Path.resolve start output_filename := output st]> fs)
                None EmptyString.
Proof.
  intros Hwf. unfold main, shld.
  destruct (preflight os force [input; output_filename]) as [[code c]|output_fd] eqn:Hp;
    [discriminate|].
  apply preflight_sink in Hp. simpl nth.
  destruct (process_file_simulates fs fuel input 0 (initial start) (initial start) Hwf)
    as (_ & _ & Hcwd); [split; reflexivity|].
  destruct (process_file fs fuel input 0 (initial start)) as [o st].
  simpl in Hcwd. destruct output_fd as [|out].
  - simpl in Hp. discriminate.
  - destruct Hp as (_ & -> & _). simpl nth.
    destruct o; try discriminate. intros [= <-].
    exists st. split; [reflexivity|]. unfold rename, cleanup. simpl.
    rewrite (Hcwd eq_refl). reflexivity.
Qed.

Lemma completed_run_installs_the_output_witness :
  exists st,
    shld More.scripts 2 [] "in.sh" = (Returned, st) /\
    snd (main More.os More.scripts 2 [] false ["in.sh"; "out/new.sh"]) =
    Machine (<[Path.resolve [] "out/new.sh" := output st]> More.scripts)
            None EmptyString.
Proof.
  apply (completed_run_installs_the_output More.os More.scripts 2 [] false
           "in.sh" "out/new.sh").
  - reflexivity.
  - vm_compute. reflexivity.
Defined.

(** X13.  An output file named without a directory part, and not there
    yet, is refused: [os.path.dirname] gives the empty string for it, which
    [os.access] does not find, so the script ends with the exit for a
    missing directory before it reads anything. *)
Theorem bare_output_name_is_refused
    (os : os_access) (fs : filesystem) (fuel : nat) (start : Path.dir)
    (force : bool) (input output_filename : string) :
  F_OK os EmptyString = false ->
  F_OK os output_filename = false ->
  Path.has_slash output_filename = false ->
  main os fs fuel start force [input; output_filename] =
  (Failed DIRECTORY_DOES_NOT_EXIST (Usage (DirectoryDoesNotExist EmptyString)),
   Machine fs None EmptyString).
Proof.
  intros H0 Hout Hbare. unfold main, preflight. simpl length. simpl nth.
  simpl orb. cbv iota. simpl Nat.eqb. cbv iota. rewrite Hout.
  unfold Path.dirname. rewrite (head_no_slash _ Hbare). simpl. rewrite H0.
  reflexivity.
Qed.

Lemma bare_output_name_is_refused_witness :
  main More.os More.scripts 2 [] true ["in.sh"; "new.sh"] =
  (Failed DIRECTORY_DOES_NOT_EXIST (Usage (DirectoryDoesNotExist EmptyString)),
   Machine More.scripts None EmptyString).
Proof.
  apply (bare_output_name_is_refused More.os More.scripts 2 [] true "in.sh" "new.sh");
    reflexivity.
Defined.

(** X14.  An output file that exists is replaced only under [--force] and
    with write permission, and only by a run that completes: in every
    other case the files are as they were. *)
Theorem existing_output_needs_force
    (os : os_access) (fs : filesystem) (fuel : nat) (start : Path.dir)
    (force : bool) (input output_filename : string) (e : ending) (m : machine) :
  main os fs fuel start force [input; output_filename] = (e, m) ->
  F_OK os output_filename = true ->
  files m <> fs ->
  force = true /\ W_OK os output_filename = true /\ e = Completed.
Proof.
  unfold main.
  destruct (preflight os force [input; output_filename]) as [[code c]|output_fd] eqn:Hp.
  - intros [= <- <-] _ H. contradiction.
  - apply preflight_sink in Hp. destruct output_fd as [|out]; [discriminate Hp|].
    destruct Hp as (_ & -> & Hforce). simpl nth in *.
    destruct (process_file fs fuel input 0 (initial start)) as [o st].
    intros Hmain HF Hfiles. destruct (Hforce HF) as [-> ->].
    destruct o; injection Hmain as <- <-; auto; simpl in Hfiles; contradiction.
Qed.

Lemma existing_output_needs_force_witness :
  true = true /\ W_OK More.os "old.sh" = true /\
  fst (main More.os More.scripts 2 [] true ["in.sh"; "old.sh"]) = Completed.
Proof.
  apply (existing_output_needs_force More.os More.scripts 2 [] true "in.sh" "old.sh"
           (fst (main More.os More.scripts 2 [] true ["in.sh"; "old.sh"]))
           (snd (main More.os More.scripts 2 [] true ["in.sh"; "old.sh"]))).
  - apply surjective_pairing.
  - reflexivity.
  - intros H. apply (f_equal (fun f => f !! ["old.sh"])) in H.
    vm_compute in H. discriminate H.
Defined.



(** X16.  The directive is recognised in any mixture of upper and lower
    case, after any white space and whatever follows it on the line: a
    line is an ignore directive exactly when it consists of white space,
    eleven characters that read [#shldignore] once put in lower case, and
    anything after that. *)
Theorem directive_pattern_accepts (line : string) :
  Re.SHLDIGNORE_COMMENT_PATTERN line = true <->
  exists ws marker rest,
    line = ws +:+ marker +:+ rest /\
    Str.all Chr.re_space ws = true /\
    lowercase marker = "#shldignore".
Proof.
  assert (Hfwd : forall k s r, Str.startswith_via Chr.lower k s = Some r ->
                   exists m, s = m +:+ r /\ lowercase m = k).
  { induction k as [|a k IH]; intros s r; simpl.
    - intros [= ->]. exists EmptyString. split; reflexivity.
    - destruct s as [|b s]; [discriminate|].
      destruct (Chr.eqb a (Chr.lower b)) eqn:E; [|discriminate].
      apply Ascii.eqb_eq in E. intros H. destruct (IH _ _ H) as (m & -> & <-).
      exists (String b m). rewrite app_cons. simpl. rewrite E. split; reflexivity. }
  assert (Hbwd : forall m r, Str.startswith_via Chr.lower (lowercase m) (m +:+ r) = Some r).
  { induction m as [|b m IH]; intros r; [reflexivity|].
    rewrite app_cons. simpl. unfold Chr.eqb. rewrite Ascii.eqb_refl. apply IH. }
  unfold Re.SHLDIGNORE_COMMENT_PATTERN. split.
  - destruct (dropwhile_split Chr.re_space line) as (ws & E & Hws).
    destruct (Str.startswith_via Chr.lower "#shldignore"
                (Str.dropwhile Chr.re_space line)) as [r|] eqn:H; [|discriminate].
    intros _. destruct (Hfwd _ _ _ H) as (m & Em & Hm).
    exists ws, m, r. rewrite <- Em. auto.
  - intros (ws & marker & rest & -> & Hws & Hm).
    rewrite dropwhile_app.
    + rewrite <- Hm, Hbwd. reflexivity.
    + exact Hws.
    + destruct marker as [|c marker]; [discriminate Hm|].
      rewrite app_cons. injection Hm as Hc _.
      destruct c as [[] [] [] [] [] [] [] []]; vm_compute in Hc |- *;
        solve [reflexivity | discriminate Hc].
Qed.

(** X17.  The line number in the misuse report is the number of lines of
    the file that come before the directive: for a directive that follows
    [length before] lines which are copied (after an accepted interpreter
    line at depth 0), the report names the file and that count, which is
    one less than the position of the directive counted from one. *)
Theorem misuse_report_counts_the_lines_before
    (fs : filesystem) (fuel : nat) (filename : string) (depth : nat)
    (st : state) (content : string) (first : list string)
    (before : list string) (directive : string) (after : list string) :
  fs_open fs (cwd st) filename = Some content ->
  readlines content = (first ++ before ++ directive :: after)%list ->
  match depth with
  | O => exists line shell, first = [line] /\ Re.search_shell line = Some shell /\
                            supported shell = true
  | S _ => first = []
  end ->
  Forall (fun l => Re.SHLDIGNORE_COMMENT_PATTERN l = false /\
                   Re.SOURCE_CMD_PATTERN l = false) before ->
  Re.SHLDIGNORE_COMMENT_PATTERN directive = true ->
  Re.SOURCE_CMD_PATTERN (fst (readline after)) = false ->
  fst (process_file fs (S fuel) filename depth st) =
  Exited IMPROPER_USE_OF_SHLDIGNORE
    (ShldignoreWithoutSource filename (length first + length before)).
Proof.
  intros Hopen Hlines Hfirst Hbefore Hd Hnext.
  destruct depth as [|depth].
  - destruct Hfirst as (line & shell & -> & Hs & Hsup).
    assert (Hi : interpreter_line 0 (readlines content) (note_open filename st) =
                 inr ((before ++ directive :: after)%list, 1,
                      write line (note_open filename st))).
    { rewrite Hlines. unfold interpreter_line. simpl. rewrite Hs, Hsup. reflexivity. }
    destruct (shldignore_misuse_report fs fuel filename 0 st content before directive
                after 1 _ _ Hopen Hi (scan_ordinary _ _ _ Hbefore 1 _) Hd Hnext)
      as [E _].
    rewrite E. reflexivity.
  - subst first.
    assert (Hi : interpreter_line (S depth) (readlines content) (note_open filename st) =
                 inr ((before ++ directive :: after)%list, 0, note_open filename st)).
    { rewrite Hlines. reflexivity. }
    destruct (shldignore_misuse_report fs fuel filename (S depth) st content before
                directive after 0 _ _ Hopen Hi (scan_ordinary _ _ _ Hbefore 0 _) Hd Hnext)
      as [E _].
    rewrite E. reflexivity.
Qed.

Lemma misuse_report_counts_the_lines_before_witness :
  fst (process_file Sample.scripts 1 "improper.sh" 0 (initial [])) =
  Exited IMPROPER_USE_OF_SHLDIGNORE
    (ShldignoreWithoutSource "improper.sh"
       (length [Sample.ln "#!/bin/bash"] + length (@nil string))).
Proof.
  apply (misuse_report_counts_the_lines_before Sample.scripts 0 "improper.sh" 0
           (initial [])
           (Sample.ln "#!/bin/bash" +:+ Sample.ln "#shldignore" +:+
            Sample.ln "echo not-an-include")
           [Sample.ln "#!/bin/bash"] [] (Sample.ln "#shldignore")
           [Sample.ln "echo not-an-include"]);
    try (vm_compute; reflexivity).
  - exists (Sample.ln "#!/bin/bash"), "bash". vm_compute. auto.
  - constructor.
Defined.
